(** * A shallow embedding of the chat Hub (internal/hub/hub.go, internal/room,
    internal/nats) and its membership, registration and bus-bridge properties.

    Pointers ( *client.Client, *room.Room ) are modelled as [nat] references
    into two heaps, so that aliasing between the hub's maps, the room member
    sets and the client's current-room pointer is the one the Go code has.
    A Go panic (nil dereference, dangling pointer) is the [None] outcome of
    the hub monad; Go errors are returned as values of [HubError]. *)

From Stdlib Require Import ZArith Bool.
From stdpp Require Import base gmap sets list strings.
Open Scope Z_scope.

(** ** Data model *)

(** The transport handle of a client: [c.Conn] is nil, writable, or fails on
    every write (a disconnected peer). *)
Inductive Conn := NoConn | ConnOk | ConnBroken.

(** client.Client: only the fields the hub reads or writes. *)
Record Client := mkClient {
  c_Name : string;
  c_UserID : string;
  c_Conn : Conn;
  c_CurrentRoom : option nat;   (* CurrentRoom interface{} holding a *room.Room *)
  c_Registered_closed : bool;   (* close(client.Registered) has run *)
  c_RegisteredOnce_done : bool  (* client.RegisteredOnce has fired *)
}.

(** room.Room *)
Record Room := mkRoom {
  r_Name : string;
  r_Clients : gset nat;
  r_Private : bool;
  r_Password : string;
  r_MaxClients : Z;
  r_Active : bool;
  r_Creator : option nat
}.

(** types.Message *)
Record Message := mkMessage {
  MessageID : string;
  Content : string;
  Type_ : string;  (* Go field Type *)
  Sender : option nat;
  MRoom : option nat;
  ServerID : string
}.

Definition MsgTypeChat := "chat"%string.
Definition MsgTypeLeave := "leave"%string.
Definition MsgTypeRoomJoin := "room_join"%string.
Definition MsgTypeRoomLeave := "room_leave"%string.
Definition MsgTypeRoomMessage := "room_message"%string.
Definition MsgTypeDeleteRoom := "delete_room"%string.
Definition MsgTypeRoomSync := "room_sync"%string.

(** natsclient: subjects *)
Definition SubjectGlobalChat := "chat.global"%string.
Definition SubjectRoomPrefix := "chat.room"%string.
Definition SubjectRoomSync := "room.sync"%string.
Definition RoomSubject (roomName : string) : string :=
  SubjectRoomPrefix +:+ "." +:+ roomName.

(** natsclient.Client: connection flag and the id chosen by NewClient,
    [fmt.Sprintf("server-%d", time.Now().UnixNano())]; the decimal
    rendering of the clock is kept as a string. *)
Record NatsClient := mkNats {
  nats_connected : bool;
  nats_nanos : string
}.
Definition GetServerID (n : NatsClient) : string := "server-" +:+ nats_nanos n.

(** Callbacks registered with Subscribe.  The room.sync callback decodes a
    JSON room descriptor and is not part of this model. *)
Inductive Handler := HGlobalChat | HRoom (r : nat).

(** The Hub together with the heaps its pointers refer to and the observable
    effects of its operations (bus publications, socket writes, channel sends). *)
Record Hub := mkHub {
  Clients : gset nat;
  Rooms : gmap string nat;
  ClientRooms : gmap nat nat;
  UserCount : Z;
  room_heap : gmap nat Room;
  client_heap : gmap nat Client;
  next_ref : nat;
  Repo : option (gmap string (bool * string));  (* persisted rooms: name -> (is_private, password_hash) *)
  NATS : option NatsClient;
  NATSEnabled : bool;
  subs : list (string * Handler);
  published : list (string * Message);
  Broadcast_q : list Message;
  Unregister_q : list nat;
  wire : list (nat * string);
  closed_conns : list nat;
  clock : string;
  WSMaxMessageSize : string;  (* os.Getenv("WS_MAX_MESSAGE_SIZE"); "" when unset *)
  RepoInsertFails : bool      (* the database answers Repo.CreateRoom's insert with an error
                                 (lost connection, ...) *)
}.

(** Single-field updates of the hub record. *)
Definition upd_core (f : gset nat -> gset nat) (g : gmap string nat -> gmap string nat)
    (k : gmap nat nat -> gmap nat nat) (u : Z -> Z) (h : Hub) : Hub :=
  mkHub (f (Clients h)) (g (Rooms h)) (k (ClientRooms h)) (u (UserCount h))
    (room_heap h) (client_heap h) (next_ref h) (Repo h) (NATS h) (NATSEnabled h)
    (subs h) (published h) (Broadcast_q h) (Unregister_q h) (wire h) (closed_conns h)
    (clock h) (WSMaxMessageSize h) (RepoInsertFails h).
Definition upd_heaps (f : gmap nat Room -> gmap nat Room)
    (g : gmap nat Client -> gmap nat Client) (n : nat -> nat) (h : Hub) : Hub :=
  mkHub (Clients h) (Rooms h) (ClientRooms h) (UserCount h)
    (f (room_heap h)) (g (client_heap h)) (n (next_ref h)) (Repo h) (NATS h) (NATSEnabled h)
    (subs h) (published h) (Broadcast_q h) (Unregister_q h) (wire h) (closed_conns h)
    (clock h) (WSMaxMessageSize h) (RepoInsertFails h).
Definition upd_effects (rp : option (gmap string (bool * string)) -> option (gmap string (bool * string)))
    (s : list (string * Handler) -> list (string * Handler))
    (p : list (string * Message) -> list (string * Message))
    (b : list Message -> list Message) (u : list nat -> list nat)
    (w : list (nat * string) -> list (nat * string)) (cl : list nat -> list nat)
    (h : Hub) : Hub :=
  mkHub (Clients h) (Rooms h) (ClientRooms h) (UserCount h)
    (room_heap h) (client_heap h) (next_ref h) (rp (Repo h)) (NATS h) (NATSEnabled h)
    (s (subs h)) (p (published h)) (b (Broadcast_q h)) (u (Unregister_q h))
    (w (wire h)) (cl (closed_conns h)) (clock h) (WSMaxMessageSize h) (RepoInsertFails h).

(** ** The hub monad: state passing, [None] is a Go panic. *)
Definition M (A : Type) : Type := Hub -> option (A * Hub).
Definition ret {A} (a : A) : M A := fun h => Some (a, h).
Definition bind {A B} (m : M A) (k : A -> M B) : M B :=
  fun h => match m h with Some (a, h') => k a h' | None => None end.
Definition get : M Hub := fun h => Some (h, h).
Definition modify (f : Hub -> Hub) : M unit := fun h => Some (tt, f h).
Definition panic {A} : M A := fun _ => None.
Notation "x <-- m ;; k" := (bind m (fun x => k)) (at level 100, m at next level, right associativity).
Notation "m ;;; k" := (bind m (fun _ => k)) (at level 100, right associativity).

(** Dereferencing a pointer. *)
Definition load_room (r : nat) : M Room :=
  fun h => match room_heap h !! r with Some x => Some (x, h) | None => None end.
Definition load_client (c : nat) : M Client :=
  fun h => match client_heap h !! c with Some x => Some (x, h) | None => None end.
Definition store_client (c : nat) (x : Client) : M unit :=
  modify (upd_heaps id (insert c x) id).

(** A method call on the object a pointer refers to: the method reads the
    object and writes it back (under the object's own mutex). *)
Definition call_room {A} (r : nat) (f : Room -> A * Room) : M A :=
  fun h => match room_heap h !! r with
           | Some x => Some (fst (f x), upd_heaps (insert r (snd (f x))) id id h)
           | None => None
           end.
Definition call_client {A} (c : nat) (f : Client -> A * Client) : M A :=
  fun h => match client_heap h !! c with
           | Some x => Some (fst (f x), upd_heaps id (insert c (snd (f x))) id h)
           | None => None
           end.

Definition set_room_Clients (x : Room) (s : gset nat) : Room :=
  mkRoom (r_Name x) s (r_Private x) (r_Password x) (r_MaxClients x) (r_Active x) (r_Creator x).
Definition set_room_Creator (x : Room) (c : option nat) : Room :=
  mkRoom (r_Name x) (r_Clients x) (r_Private x) (r_Password x) (r_MaxClients x) (r_Active x) c.
Definition set_client_CurrentRoom (x : Client) (r : option nat) : Client :=
  mkClient (c_Name x) (c_UserID x) (c_Conn x) r (c_Registered_closed x) (c_RegisteredOnce_done x).

(** The double-quote character (ASCII 34). *)
Definition dquote : string := String (Ascii.ascii_of_nat 34) EmptyString.

Definition str_eqb (a b : string) : bool := bool_decide (a = b).

(** ** internal/room: Room methods *)

(** room.NewRoom *)
Definition NewRoom (name : string) (private : bool) (password : string) (maxClients : Z) : Room :=
  mkRoom name ∅ private password maxClients true None.

(** Room.AddClient: refuses when [len(r.Clients) >= r.MaxClients]. *)
Definition AddClient (x : Room) (c : nat) : bool * Room :=
  if Z.of_nat (size (r_Clients x)) >=? r_MaxClients x then (false, x)
  else (true, set_room_Clients x ({[c]} ∪ r_Clients x)).

(** Room.RemoveClient *)
Definition RemoveClient (x : Room) (c : nat) : Room :=
  set_room_Clients x (r_Clients x ∖ {[c]}).

(** Room.GetClients: a snapshot of the member set. *)
Definition GetClients (x : Room) : list nat := elements (r_Clients x).

(** Room.IsCreator / Room.SetCreator *)
Definition IsCreator (x : Room) (c : nat) : bool :=
  match r_Creator x with Some c' => Nat.eqb c' c | None => false end.
Definition SetCreator (x : Room) (c : nat) : Room := set_room_Creator x (Some c).

(** ** golang.org/x/crypto/bcrypt

    The hash function itself is a parameter.  What the model fixes is the
    part of CompareHashAndPassword the hub depends on: a stored value shorter
    than [minHashSize] = 59 bytes is rejected with ErrHashTooShort before any
    comparison is made. *)

(** The result of GenerateFromPassword: the hash, or the text of its error. *)
Inductive GenResult := Hashed (hash : string) | GenError (msg : string).

Class Bcrypt := {
  GenerateFromPassword : string -> GenResult;
  compare_well_formed : string -> string -> bool    (* comparison of a hash of full size *)
}.

Definition minHashSize : nat := 59.

Definition CompareHashAndPassword `{Bcrypt} (hashed password : string) : bool :=
  if (String.length hashed <? minHashSize)%nat then false
  else compare_well_formed hashed password.

(** Hub.VerifyPassword *)
Definition VerifyPassword `{Bcrypt} (inputPassword correctPassword : string) : bool :=
  CompareHashAndPassword correctPassword inputPassword.

(** ** The bus client (internal/nats) *)

(** Client.Publish: when connected, the message goes out with a fresh
    message id [fmt.Sprintf("%d-%s", nanos, msg.Type)] and this server's id;
    receivers rebuild it with a nil Sender and a nil Room. *)
Definition Publish (subject : string) (m : Message) : M bool :=
  h <-- get ;;
  match NATS h with
  | None => panic
  | Some n =>
      if nats_connected n then
        modify (upd_effects id id
          (fun p => p ++ [(subject, mkMessage (clock h +:+ "-" +:+ Type_ m) (Content m)
                                    (Type_ m) None None (GetServerID n))])
          id id id id) ;;;
        ret true
      else ret false
  end.

(** nats.go's badSubject, checked by Conn.Subscribe: a subject containing
    a space, tab, CR or LF, or one of whose dot-separated tokens is empty
    ([strings.Split(subj, ".")]), is refused with ErrBadSubject.  [tok] is
    the length of the token read so far. *)
Fixpoint bad_subject_from (s : string) (tok : nat) : bool :=
  match s with
  | EmptyString => Nat.eqb tok 0
  | String a s' =>
      let k := Ascii.nat_of_ascii a in
      if existsb (Nat.eqb k) [32; 9; 13; 10]%nat then true   (* " \t\r\n" *)
      else if Nat.eqb k 46 then Nat.eqb tok 0 || bad_subject_from s' 0   (* "." *)
      else bad_subject_from s' (S tok)
  end.
Definition badSubject (subj : string) : bool := bad_subject_from subj 0.

(** Client.Subscribe: registers one more callback on [subject]; [false] is
    a returned error (not connected, or a subject the bus refuses). *)
Definition Subscribe (subject : string) (hd : Handler) : M bool :=
  h <-- get ;;
  match NATS h with
  | None => panic
  | Some n =>
      if nats_connected n then
        if badSubject subject then ret false
        else modify (upd_effects id (fun s => s ++ [(subject, hd)]) id id id id id) ;;; ret true
      else ret false
  end.

(** ** Socket writes and channel sends *)

(** [client.Conn.Write]: nil connection panics. *)
Definition conn_write (c : nat) (payload : string) : M unit :=
  cl <-- load_client c ;;
  match c_Conn cl with
  | NoConn => panic
  | ConnOk => modify (upd_effects id id id id id (fun w => w ++ [(c, payload)]) id)
  | ConnBroken => ret tt   (* error only logged *)
  end.

Definition send_Unregister (c : nat) : M unit :=
  modify (upd_effects id id id id (fun u => u ++ [c]) id id).
Definition send_Broadcast (m : Message) : M unit :=
  modify (upd_effects id id id (fun b => b ++ [m]) id id id).

Fixpoint mapM_ (f : nat -> M unit) (l : list nat) : M unit :=
  match l with [] => ret tt | x :: l' => f x ;;; mapM_ f l' end.

(** ** internal/validator: message sizes *)

Definition MaxMessageSizeDefault : Z := 64 * 1024.
Definition MinMessageSize : Z := 1.

(** The first two checks of validator.ValidateMessageSize, as a boolean. *)
Definition ValidateMessageSize (size maxSize : Z) : bool :=
  negb (size <? MinMessageSize) && negb (maxSize <? size).

Definition MaxMessageSize : Z := 1024 * 1024.

(** The three ValidationErrors of ValidateMessageSize. *)
Inductive SizeError := MessageEmpty | MessageTooLarge | MessageExceedsMaximum.

(** validator.ValidateMessageSize, all three checks. *)
Definition ValidateMessageSizeErr (size maxSize : Z) : option SizeError :=
  if size <? MinMessageSize then Some MessageEmpty
  else if maxSize <? size then Some MessageTooLarge
  else if MaxMessageSize <? size then Some MessageExceedsMaximum
  else None.

(** strconv.Atoi on a 64-bit platform: an optional sign followed by at
    least one decimal digit, the value within the int64 range. *)
Fixpoint digits_value (s : string) (acc : Z) : option Z :=
  match s with
  | EmptyString => Some acc
  | String a s' =>
      let d := Z.of_nat (Ascii.nat_of_ascii a) - 48 in
      if (0 <=? d) && (d <=? 9) then digits_value s' (acc * 10 + d) else None
  end.

Definition Atoi (s : string) : option Z :=
  let '(neg, body) :=
    match s with
    | String (Ascii.Ascii true true false true false true false false) r (* + *) => (false, r)
    | String (Ascii.Ascii true false true true false true false false) r (* - *) => (true, r)
    | _ => (false, s)
    end in
  match body with
  | EmptyString => None
  | _ =>
      match digits_value body 0 with
      | None => None
      | Some v =>
          let v := if neg then - v else v in
          if (- 2 ^ 63 <=? v) && (v <=? 2 ^ 63 - 1) then Some v else None
      end
  end.

(** validator.GetMaxMessageSize, given the value of WS_MAX_MESSAGE_SIZE
    ([os.Getenv] returns "" for an unset variable). *)
Definition GetMaxMessageSize (env : string) : Z :=
  match env with
  | EmptyString => MaxMessageSizeDefault
  | _ =>
      match Atoi env with
      | Some size =>
          if 0 <? size then (if MaxMessageSize <? size then MaxMessageSize else size)
          else MaxMessageSizeDefault
      | None => MaxMessageSizeDefault
      end
  end.


(** ** Hub.BroadcastToRoom *)

(** The delivery loop over the member snapshot.  [None]: the loop hit the
    size check and the function returned; [Some rm]: the clients whose write
    failed. *)
Fixpoint broadcast_loop (roomName : string) (m : Message) (cs : list nat) (rm : list nat)
    : M (option (list nat)) :=
  match cs with
  | [] => ret (Some rm)
  | c :: cs' =>
      cl <-- load_client c ;;
      match c_Conn cl with
      | NoConn => broadcast_loop roomName m cs' rm
      | conn =>
          if str_eqb (Type_ m) MsgTypeRoomMessage && bool_decide (Sender m = Some c)
          then broadcast_loop roomName m cs' rm
          else
            h <-- get ;;
            let maxSize := GetMaxMessageSize (WSMaxMessageSize h) in
            match ValidateMessageSizeErr (Z.of_nat (String.length (Content m))) maxSize with
            | Some _ => ret None
            | None =>
                let formatted := ("[" +:+ roomName +:+ "] " +:+ Content m)%string in
                match conn with
                | ConnOk =>
                    modify (upd_effects id id id id id (fun w => w ++ [(c, formatted)]) id) ;;;
                    broadcast_loop roomName m cs' rm
                | _ => broadcast_loop roomName m cs' (rm ++ [c])
                end
            end
      end
  end.

Definition BroadcastToRoom (r : nat) (m : Message) : M unit :=
  room <-- load_room r ;;
  let clients := GetClients room in
  h <-- get ;;
  (if NATSEnabled h && bool_decide (NATS h <> None) && str_eqb (MessageID m) ""
   then Publish (RoomSubject (r_Name room)) m ;;; ret tt else ret tt) ;;;
  res <-- broadcast_loop (r_Name room) m clients [] ;;
  match res with
  | None => ret tt
  | Some rm => mapM_ send_Unregister rm
  end.

(** ** Errors returned by the hub *)
Inductive HubError :=
  | InvalidName          (* "invalid room name" *)
  | RoomExists           (* "room already exists" *)
  | HashFailed (err : string)  (* "failed to hash password: %w" *)
  | RoomInactive         (* "room is not active" *)
  | RoomFull             (* "room is full" *)
  | InvalidPassword      (* "invalid password" *)
  | RoomDoesNotExist     (* "room does not exist" *)
  | NotCreator.          (* "only the room creator can delete this room" *)

(** A Go [error]: [None] is nil. *)
Abbreviation error := (option HubError).

(** ** Hub.leaveRoomInternal (locks held by the caller).  The best-effort
    removal of the membership row from the database has no effect on the
    hub's state and is not modelled. *)
Definition leaveRoomInternal (c : nat) : M unit :=
  cl <-- load_client c ;;
  match c_CurrentRoom cl with
  | None => ret tt
  | Some r =>
      room <-- load_room r ;;
      call_room r (fun x => (tt, RemoveClient x c)) ;;;
      call_client c (fun x => (tt, set_client_CurrentRoom x None)) ;;;
      modify (upd_core id id (delete c) id) ;;;
      conn_write c ("You have left the room " +:+ dquote +:+ r_Name room +:+ dquote)%string ;;;
      h <-- get ;;
      BroadcastToRoom r (mkMessage ""
        ("[" +:+ clock h +:+ "] " +:+ c_Name cl +:+ " has left the room")
        MsgTypeRoomLeave None None "")
  end.

(** Hub.LeaveRoom *)
Definition LeaveRoom (c : nat) : M unit := leaveRoomInternal c.

(** ** Hub.JoinRoom.  The best-effort membership row written to the database
    has no effect on the hub's state and is not modelled. *)
Definition JoinRoom `{Bcrypt} (c r : nat) (password : string) : M error :=
  (* if targetRoom.Creator == nil { targetRoom.SetCreator(client) } *)
  call_room r (fun x => match r_Creator x with
                        | None => (tt, SetCreator x c)
                        | Some _ => (tt, x)
                        end) ;;;
  room <-- load_room r ;;
  if negb (r_Active room) then ret (Some RoomInactive) else
  added <-- call_room r (fun x => AddClient x c) ;;
  if negb added then ret (Some RoomFull) else
  room <-- load_room r ;;
  if r_Private room && negb (VerifyPassword password (r_Password room)) then
    call_room r (fun x => (tt, RemoveClient x c)) ;;;   (* Rollback *)
    ret (Some InvalidPassword)
  else
  leaveRoomInternal c ;;;
  call_room r (fun x => AddClient x c) ;;;
  call_client c (fun x => (tt, set_client_CurrentRoom x (Some r))) ;;;
  room <-- load_room r ;;
  modify (upd_core id id (insert c r) id) ;;;
  h <-- get ;;
  (if NATSEnabled h && bool_decide (NATS h <> None)
   then Subscribe (RoomSubject (r_Name room)) (HRoom r) ;;; ret tt
   else ret tt) ;;;
  cl <-- load_client c ;;
  h <-- get ;;
  BroadcastToRoom r (mkMessage ("join-" +:+ clock h +:+ "-" +:+ c_UserID cl)
    ("[" +:+ clock h +:+ "] " +:+ c_Name cl +:+ " has joined the room")
    MsgTypeRoomJoin (Some c) None "") ;;;
  (match c_Conn cl with
   | NoConn => ret tt
   | _ => conn_write c ("[" +:+ clock h +:+ "] Welcome to room '" +:+ r_Name room +:+ "'!")%string
   end) ;;;
  ret None.

(** A NUL byte, which a JSON string can carry as \u0000. *)
Fixpoint has_nul (s : string) : bool :=
  match s with
  | EmptyString => false
  | String a s' => Ascii.eqb a Ascii.zero || has_nul s'
  end.

(** ** Hub.CreateRoom.  [Repo] is the table of persisted rooms (a NULL
    password_hash reads back as the empty string); GetRoomByName succeeds
    exactly on its keys.  The insert of Repo.CreateRoom fails when the
    database answers it with an error ([RepoInsertFails]) and for a name
    holding a NUL byte, which PostgreSQL text refuses; the error is only
    logged and CreateRoom still succeeds.  The room.sync payload, a JSON
    object, is represented by the room name. *)
Definition CreateRoom `{Bcrypt} (name : string) (private : bool) (password : string)
    (maxClients : Z) : M (option nat * error) :=
  if str_eqb name "" || (50 <? String.length name)%nat then ret (None, Some InvalidName) else
  h <-- get ;;
  if (match Repo h with Some db => bool_decide (is_Some (db !! name)) | None => false end)
  then ret (None, Some RoomExists) else
  if bool_decide (is_Some (Rooms h !! name)) then ret (None, Some RoomExists) else
  let ref := next_ref h in
  modify (upd_heaps (insert ref (NewRoom name private password maxClients)) id S) ;;;
  modify (upd_core id (insert name ref) id id) ;;;
  let insert_row (db : gmap string (bool * string)) (hsh : string) : M unit :=
    if RepoInsertFails h || has_nul name then ret tt   (* "Failed to persist room" logged *)
    else modify (upd_effects (fun _ => Some (<[name := (private, hsh)]> db)) id id id id id id) in
  perr <-- (match Repo h with
            | None => ret None
            | Some db =>
                if private && negb (str_eqb password "") then
                  match GenerateFromPassword password with
                  | GenError err => ret (Some (HashFailed err))
                  | Hashed hashed => insert_row db hashed ;;; ret None
                  end
                else insert_row db "" ;;; ret None
            end) ;;
  match perr with
  | Some e => ret (None, Some e)
  | None =>
      h <-- get ;;
      (if NATSEnabled h && bool_decide (NATS h <> None)
       then Publish SubjectRoomSync (mkMessage "" name MsgTypeRoomSync None None "") ;;; ret tt
       else ret tt) ;;;
      ret (Some ref, None)
  end.

(** ** Hub.LoadRoomsFromDB: one in-memory room per persisted row, with the
    stored hash as its password, MaxClients 100 and no creator. *)
Fixpoint load_rows (rows : list (string * (bool * string))) : M unit :=
  match rows with
  | [] => ret tt
  | (name, (priv, hash)) :: rest =>
      h <-- get ;;
      let ref := next_ref h in
      modify (upd_heaps (insert ref (NewRoom name priv hash 100)) id S) ;;;
      modify (upd_core id (insert name ref) id id) ;;;
      load_rows rest
  end.

Definition LoadRoomsFromDB : M unit :=
  h <-- get ;;
  match Repo h with
  | None => ret tt
  | Some db => load_rows (map_to_list db)
  end.

(** ** Hub.DeleteRoom *)
Definition DeleteRoom (c : nat) (roomName : string) : M error :=
  h <-- get ;;
  match Rooms h !! roomName with
  | None => ret (Some RoomDoesNotExist)
  | Some r =>
      room <-- load_room r ;;
      if negb (IsCreator room c) then ret (Some NotCreator) else
      cl <-- load_client c ;;
      send_Broadcast (mkMessage ""
        ("[" +:+ clock h +:+ "] Room '" +:+ roomName +:+ "' has been deleted by " +:+ c_Name cl)
        MsgTypeDeleteRoom None None "") ;;;
      modify (upd_core id (delete roomName) id id) ;;;
      ret None
  end.

(** ** Hub.Run: the event-loop cases *)

(** [case client := <-h.Register] *)
Definition run_register (oc : option nat) : M unit :=
  match oc with
  | None => ret tt
  | Some c =>
      modify (upd_core (union {[c]}) id id (Z.add 1)) ;;;
      cl <-- load_client c ;;
      (* client.RegisteredOnce.Do(func() { close(client.Registered) }) *)
      if c_RegisteredOnce_done cl then ret tt else
      if c_Registered_closed cl then panic   (* close of a closed channel *)
      else store_client c (mkClient (c_Name cl) (c_UserID cl) (c_Conn cl)
                             (c_CurrentRoom cl) true true)
  end.

(** [case client := <-h.Unregister] *)
Definition run_unregister (oc : option nat) : M unit :=
  match oc with
  | None => ret tt
  | Some c =>
      h <-- get ;;
      (if bool_decide (c ∈ Clients h) then
         modify (upd_core (fun s => s ∖ {[c]}) id id (fun u => u - 1)) ;;;
         cl <-- load_client c ;;
         match c_Conn cl with
         | NoConn => ret tt
         | _ => modify (upd_effects id id id id id id (fun l => l ++ [c]))
         end
       else ret tt) ;;;
      cl <-- load_client c ;;
      h <-- get ;;
      send_Broadcast (mkMessage ""
        ("[" +:+ clock h +:+ "] " +:+ c_Name cl +:+ " has left the chat")
        MsgTypeLeave None None "")
  end.

(** The global delivery loop of the Broadcast case; returns the clients
    whose write failed. *)
Fixpoint global_loop (m : Message) (cs : list nat) (rm : list nat) : M (list nat) :=
  match cs with
  | [] => ret rm
  | c :: cs' =>
      if str_eqb (Type_ m) MsgTypeChat && bool_decide (Sender m = Some c)
      then global_loop m cs' rm else
      cl <-- load_client c ;;
      match c_Conn cl with
      | NoConn => global_loop m cs' rm
      | ConnOk =>
          modify (upd_effects id id id id id (fun w => w ++ [(c, Content m)]) id) ;;;
          global_loop m cs' rm
      | ConnBroken => global_loop m cs' (rm ++ [c])
      end
  end.

Definition remove_failed (c : nat) : M unit :=
  h <-- get ;;
  if bool_decide (c ∈ Clients h) then
    modify (upd_core (fun s => s ∖ {[c]}) id id (fun u => u - 1)) ;;;
    modify (upd_effects id id id id id id (fun l => l ++ [c]))
  else ret tt.

(** [case message := <-h.Broadcast].  Saving chat messages to the
    database does not change the hub's state and is not modelled. *)
Definition run_broadcast (m : Message) : M unit :=
  h <-- get ;;
  (if NATSEnabled h && bool_decide (NATS h <> None) && bool_decide (MRoom m = None)
      && str_eqb (MessageID m) ""
   then Publish SubjectGlobalChat m ;;; ret tt else ret tt) ;;;
  match MRoom m with
  | Some r => BroadcastToRoom r m
  | None =>
      h <-- get ;;
      rm <-- global_loop m (elements (Clients h)) [] ;;
      mapM_ remove_failed rm
  end.

(** The subscriptions Run sets up before its loop (room.sync excluded). *)
Definition run_setup : M unit :=
  h <-- get ;;
  if NATSEnabled h && bool_decide (NATS h <> None)
  then Subscribe SubjectGlobalChat HGlobalChat ;;; ret tt
  else ret tt.

(** ** Bus deliveries *)

(** The body of the global-chat callback (Run) and of the per-room
    callback (JoinRoom): drop messages of this server's own id. *)
Definition handle (hd : Handler) (m : Message) : M unit :=
  h <-- get ;;
  match NATS h with
  | None => panic
  | Some n =>
      if negb (str_eqb (ServerID m) "") && str_eqb (ServerID m) (GetServerID n)
      then ret tt
      else match hd with
           | HGlobalChat => send_Broadcast m
           | HRoom r => BroadcastToRoom r m
           end
  end.

(** The bus hands a message published on [subject] to every callback
    subscribed to it; the Subscribe wrapper rebuilds it with nil Sender and
    Room. *)
Fixpoint run_handlers (subject : string) (m : Message) (l : list (string * Handler)) : M unit :=
  match l with
  | [] => ret tt
  | (s, hd) :: l' =>
      (if str_eqb s subject then handle hd m else ret tt) ;;; run_handlers subject m l'
  end.

Definition deliver (subject : string) (m : Message) : M unit :=
  h <-- get ;;
  run_handlers subject (mkMessage (MessageID m) (Content m) (Type_ m) None None (ServerID m))
    (subs h).

(** ** Lookups of the hub (hub.go) *)

(** Hub.GetRoom: [room, exists := h.Rooms[name]]. *)
Definition GetRoom (name : string) : M (option nat) :=
  h <-- get ;; ret (Rooms h !! name).

(** Room.GetClientCount *)
Definition GetClientCount (x : Room) : nat := size (r_Clients x).

(** types.RoomDTO *)
Record RoomDTO := mkRoomDTO {
  dto_Name : string;
  dto_Private : bool;
  dto_ClientCount : nat;
  dto_IsCreator : bool
}.

(** The loop of GetRoomList over the snapshot of [h.Rooms]:
    [isCreator := room.Creator == client]. *)
Fixpoint room_dtos (c : nat) (l : list (string * nat)) : M (list RoomDTO) :=
  match l with
  | [] => ret []
  | (name, r) :: l' =>
      room <-- load_room r ;;
      rest <-- room_dtos c l' ;;
      ret (mkRoomDTO name (r_Private room) (size (r_Clients room))
             (bool_decide (r_Creator room = Some c)) :: rest)
  end.

(** Hub.GetRoomList (the map iteration order is taken to be the one of
    [map_to_list]). *)
Definition GetRoomList (c : nat) : M (list RoomDTO) :=
  h <-- get ;; room_dtos c (map_to_list (Rooms h)).

(** ** natsclient: the presence subject *)
Definition SubjectPresencePrefix := "presence"%string.
Definition PresenceSubject (roomName : string) : string :=
  SubjectPresencePrefix +:+ "." +:+ roomName.

(** ** The room.sync callback of Hub.Run.  Its argument is the decoded JSON
    object: a key that is absent or holds a value of another JSON type reads
    as [None]; [rs_maxClients] is [int(mc)] of the float64 read. *)
Record RoomSyncData := mkRoomSync {
  rs_name : option string;
  rs_private : option bool;
  rs_password : option string;
  rs_maxClients : option Z
}.

Definition room_sync (d : option RoomSyncData) : M unit :=
  match d with
  | None => ret tt   (* json.Unmarshal failed: logged, nothing done *)
  | Some d =>
      let name := default ""%string (rs_name d) in
      let private := default false (rs_private d) in
      let password := default ""%string (rs_password d) in
      let maxClients := default 100 (rs_maxClients d) in
      h <-- get ;;
      if bool_decide (is_Some (Rooms h !! name)) then ret tt else
      let ref := next_ref h in
      modify (upd_heaps (insert ref (NewRoom name private password maxClients)) id S) ;;;
      modify (upd_core id (insert name ref) id id)
  end.

(** ** internal/server: HandleWebSocketMessage *)

(** The text of the errors the hub returns. *)
Definition error_text (e : HubError) : string :=
  match e with
  | InvalidName => "invalid room name"
  | RoomExists => "room already exists"
  | HashFailed err => "failed to hash password: " +:+ err
  | RoomInactive => "room is not active"
  | RoomFull => "room is full"
  | InvalidPassword => "invalid password"
  | RoomDoesNotExist => "room does not exist"
  | NotCreator => "only the room creator can delete this room"
  end.

(** case types.MsgTypeChat; the clock reading stands for
    [time.Now().Format("15:04:05")]. *)
Definition HandleChat (c : nat) (content : string) : M unit :=
  cl <-- load_client c ;;
  h <-- get ;;
  send_Broadcast (mkMessage "" ("[" +:+ clock h +:+ "] " +:+ c_Name cl +:+ ": " +:+ content)
    MsgTypeChat (Some c) None "").


(** case types.MsgTypeCreateRoom *)
Definition HandleCreateRoom `{Bcrypt} (c : nat) (name : string) (private : bool)
    (password : string) : M unit :=
  res <-- CreateRoom name private password 100 ;;
  match res with
  | (_, Some e) => conn_write c ("Error creating room: " +:+ error_text e)
  | (Some r, None) =>
      call_room r (fun x => (tt, SetCreator x c)) ;;;
      conn_write c ("Room '" +:+ name +:+ "' created successfully")
  | (None, None) => panic
  end.

(** case types.MsgTypeJoinRoom *)
Definition HandleJoinRoom `{Bcrypt} (c : nat) (name password : string) : M unit :=
  target <-- GetRoom name ;;
  match target with
  | Some r =>
      err <-- JoinRoom c r password ;;
      match err with
      | Some e => conn_write c ("Error joining room: " +:+ error_text e)
      | None => ret tt
      end
  | None => conn_write c ("Room '" +:+ name +:+ "' does not exist")
  end.

(** case types.MsgTypeLeaveRoom *)
Definition HandleLeaveRoom (c : nat) : M unit :=
  LeaveRoom c ;;;
  conn_write c "ROOM_LEAVE_SUCCESS:You have successfully left the room".

(** case types.MsgTypeDeleteRoom *)
Definition HandleDeleteRoom (c : nat) (name : string) : M unit :=
  err <-- DeleteRoom c name ;;
  match err with
  | Some e => conn_write c ("Error deleting room: " +:+ error_text e)
  | None => conn_write c ("Room '" +:+ name +:+ "' deleted successfully")
  end.

(** ** Construction *)

(** Hub.NewHub: NATSEnabled is fixed when the hub is built.  The hub also
    carries the clock reading [now], the value [env] of WS_MAX_MESSAGE_SIZE
    and whether the database fails inserts. *)
Definition NewHub (repo : option (gmap string (bool * string))) (natsClient : option NatsClient)
    (now env : string) (insertFails : bool) : Hub :=
  mkHub ∅ ∅ ∅ 0 ∅ ∅ 0 repo natsClient
    (match natsClient with Some n => nats_connected n | None => false end)
    [] [] [] [] [] [] now env insertFails.

(** The transport creating a session before submitting it to Register. *)
Definition new_session (c : nat) (name userID : string) (conn : Conn) (h : Hub) : Hub :=
  upd_heaps id (insert c (mkClient name userID conn None false false)) id h.

(** Running a hub computation to its final state. *)
Definition exec {A} (m : M A) (h : Hub) : option Hub := option_map snd (m h).
Definition eval {A} (m : M A) (h : Hub) : option A := option_map fst (m h).

(** A concrete bcrypt: hashes are a fixed 60-byte prefix followed by the
    password. *)
Definition demo_prefix : string :=
  "$2a$10$abcdefghijklmnopqrstuvwxyzABCDEFGHIJKLMNOPQRSTUVWXYZ0".
#[local] Instance demo_bcrypt : Bcrypt := {
  GenerateFromPassword := fun p => Hashed (demo_prefix +:+ p);
  compare_well_formed := fun hsh p => str_eqb hsh (demo_prefix +:+ p)
}.

Definition demo_nats : NatsClient := mkNats true "1700000000".
Definition hub0 : Hub :=
  new_session 2%nat "bob" "u2" ConnOk (new_session 1%nat "alice" "u1" ConnOk
    (NewHub (Some ∅) (Some demo_nats) "12:00:00" "" false)).

Definition hubdb : Hub :=
  new_session 2%nat "bob" "u2" ConnOk (new_session 1%nat "alice" "u1" ConnOk
    (NewHub (Some {["vip" := (true, demo_prefix +:+ "pw")]}) (Some demo_nats) "12:00:00" "" false)).

(** ** The membership invariant: the client-to-room index and the member
    sets of the rooms agree. *)
Definition membership_inv (h : Hub) : Prop :=
  (forall (c r : nat) (x : Room), room_heap h !! r = Some x ->
     (c ∈ r_Clients x <-> ClientRooms h !! c = Some r)) /\
  (forall (c r : nat), ClientRooms h !! c = Some r -> is_Some (room_heap h !! r)).

Definition membership_check (h : Hub) : bool :=
  forallb (fun '(r, x) =>
      forallb (fun c => bool_decide (ClientRooms h !! c = Some r)) (elements (r_Clients x)))
    (map_to_list (room_heap h)) &&
  forallb (fun '(c, r) =>
      match room_heap h !! r with
      | Some x => bool_decide (c ∈ r_Clients x)
      | None => false
      end)
    (map_to_list (ClientRooms h)).

(** ** Scenarios *)

(** Bob's hub, with one persisted private room "vip" whose password is "pw":
    the room is loaded, alice registers and joins it with the right password. *)
Definition vip_setup : M error :=
  LoadRoomsFromDB ;;; run_register (Some 1%nat) ;;; JoinRoom 1 0 "pw".
Definition vip_joined : Hub :=
  Eval vm_compute in (match exec vip_setup hubdb with Some h => h | None => hubdb end).
(** ... then alice asks to join "vip" again, with a wrong password. *)
Definition vip_rejoined : Hub :=
  Eval vm_compute in
    (match exec (JoinRoom 1 0 "bad") vip_joined with Some h => h | None => hubdb end).

(** Alice creates the public room "lobby" (reference 0) and joins it; then
    bob joins it too. *)
Definition lobby_setup : M error :=
  CreateRoom "lobby" false "" 10 ;;; JoinRoom 1 0 "" ;;; JoinRoom 2 0 "".
Definition lobby_hub : Hub :=
  Eval vm_compute in (match exec lobby_setup hub0 with Some h => h | None => hub0 end).

(** The intermediate states of that scenario. *)
Definition lobby_created : Hub :=
  Eval vm_compute in
    (match exec (CreateRoom "lobby" false "" 10) hub0 with Some h => h | None => hub0 end).
Definition lobby_alice : Hub :=
  Eval vm_compute in
    (match exec (JoinRoom 1 0 "") lobby_created with Some h => h | None => hub0 end).

Definition own_msg : Message :=
  mkMessage "1700000000123-room_message" "hi" MsgTypeRoomMessage None None "server-1700000000".


(** A join notification (non-empty message id) handed to BroadcastToRoom. *)
Definition join_note : Message :=
  mkMessage "join-1-u1" "alice has joined the room" MsgTypeRoomJoin (Some 1%nat) None "".
Definition lobby_noted : Hub :=
  Eval vm_compute in
    (match exec (BroadcastToRoom 0 join_note) lobby_hub with Some h => h | None => hub0 end).

(** Alice creates "lobby", joins it and deletes it. *)
Definition lobby_delete_setup : M error :=
  CreateRoom "lobby" false "" 10 ;;; JoinRoom 1 0 "" ;;; DeleteRoom 1 "lobby".
Definition lobby_deleted : Hub :=
  Eval vm_compute in (match exec lobby_delete_setup hub0 with Some h => h | None => hub0 end).

(** Alice creates the private room "vip" with password "pw". *)
Definition vip_created : Hub :=
  Eval vm_compute in
    (match exec (CreateRoom "vip" true "pw" 10) hub0 with Some h => h | None => hub0 end).

(** The persisted room "vip" loaded, creator unset; bob then tries it with a
    wrong password. *)
Definition vip_loaded : Hub :=
  Eval vm_compute in (match exec LoadRoomsFromDB hubdb with Some h => h | None => hubdb end).
Definition vip_bob_refused : Hub :=
  Eval vm_compute in
    (match exec (JoinRoom 2 0 "bad") vip_loaded with Some h => h | None => hubdb end).

(** A bus-less hub with sessions 1..n (no connection) and the persisted
    private room "vip"; sessions 1..100 join it with the right password. *)
Fixpoint add_sessions (n : nat) (h : Hub) : Hub :=
  match n with
  | O => h
  | S k => new_session (S k) "guest" "" NoConn (add_sessions k h)
  end.
Definition hubfull0 : Hub :=
  add_sessions 101 (NewHub (Some {["vip" := (true, demo_prefix +:+ "pw")]}) None "12:00:00" "" false).
Definition fill_vip : M unit :=
  LoadRoomsFromDB ;;; mapM_ (fun k => JoinRoom k 0 "pw" ;;; ret tt) (seq 1 100).
Definition vip_full : Hub :=
  Eval vm_compute in (match exec fill_vip hubfull0 with Some h => h | None => hubfull0 end).

(** Alice's session processed by Register once, then twice. *)
Definition hub_reg1 : Hub :=
  Eval vm_compute in (match exec (run_register (Some 1%nat)) hub0 with Some h => h | None => hub0 end).
Definition hub_reg2 : Hub :=
  Eval vm_compute in
    (match exec (run_register (Some 1%nat)) hub_reg1 with Some h => h | None => hub0 end).

(** Character count of a UTF-8 byte string: the bytes that are not
    continuation bytes (10xxxxxx). *)
Fixpoint utf8_char_count (s : string) : nat :=
  match s with
  | EmptyString => O
  | String (Ascii.Ascii _ _ _ _ _ _ b6 b7) s' =>
      ((if b7 && negb b6 then O else 1) + utf8_char_count s')%nat
  end.

(** U+00E9 (e with acute accent): two bytes in UTF-8. *)
Definition e_acute : string :=
  String (Ascii.ascii_of_nat 195) (String (Ascii.ascii_of_nat 169) EmptyString).
Fixpoint repeat_str (n : nat) (s : string) : string :=
  match n with O => EmptyString | S k => s +:+ repeat_str k s end.
Definition name50 : string := repeat_str 50 e_acute.

(** ** Invariants, views and scenarios of the further properties *)

(** The capacity bound of a room: no more members than MaxClients. *)
Definition room_capacity_ok (x : Room) : Prop :=
  Z.of_nat (size (r_Clients x)) <= r_MaxClients x.
Definition capacity_ok (h : Hub) : Prop :=
  forall r x, room_heap h !! r = Some x -> room_capacity_ok x.
Definition capacity_kept (h h' : Hub) : Prop := capacity_ok h -> capacity_ok h'.

(** The registry, the index, the heaps and the repository: everything but
    the subscriptions and the recorded effects. *)
Definition core_of (h : Hub) :=
  (Clients h, Rooms h, ClientRooms h, UserCount h, room_heap h, client_heap h, next_ref h, Repo h).

(** The session's current-room pointer agrees with the client-to-room index. *)
Definition current_room_agrees (h : Hub) : Prop :=
  forall c cl, client_heap h !! c = Some cl -> c_CurrentRoom cl = ClientRooms h !! c.


(** The online-user counter and the registered set. *)
Definition count_of (h : Hub) : gset nat * Z := (Clients h, UserCount h).
Definition count_ok (h : Hub) : Prop := UserCount h = Z.of_nat (size (Clients h)).

(** The transport state of a session, as the delivery loops test it. *)
Definition conn_of (h : Hub) (c : nat) : option Conn := option_map c_Conn (client_heap h !! c).
Definition conn_is_ok (o : option Conn) : bool :=
  match o with Some ConnOk => true | _ => false end.
Definition conn_is_broken (o : option Conn) : bool :=
  match o with Some ConnBroken => true | _ => false end.



(** Boolean checks of [capacity_ok], [current_room_agrees] and of the
    absence of dangling room references, for concrete hubs. *)
Definition capacity_check (h : Hub) : bool :=
  forallb (fun '(_, x) => Z.of_nat (size (r_Clients x)) <=? r_MaxClients x) (map_to_list (room_heap h)).
Definition current_room_check (h : Hub) : bool :=
  forallb (fun '(c, cl) => bool_decide (c_CurrentRoom cl = ClientRooms h !! c)) (map_to_list (client_heap h)).
Definition rooms_resolved (h : Hub) : bool :=
  forallb (fun '(_, r) => bool_decide (is_Some (room_heap h !! r))) (map_to_list (Rooms h)).

(** A bcrypt that refuses passwords longer than 72 bytes. *)
Definition bcrypt72 : Bcrypt := {|
  GenerateFromPassword := fun p =>
    if (72 <? String.length p)%nat then GenError "bcrypt: password length exceeds 72 bytes"
    else Hashed (demo_prefix +:+ p);
  compare_well_formed := fun hsh p => str_eqb hsh (demo_prefix +:+ p)
|}.

(** Scenarios. *)
Definition no_client : Client := mkClient "" "" NoConn None false false.

(** Alice leaves "lobby". *)
Definition lobby_left : Hub :=
  Eval vm_compute in (match exec (LeaveRoom 1) lobby_hub with Some h => h | None => hub0 end).
(** Alice's create-room request for "lobby", with the handler's bound of 100. *)
Definition lobby100_created : Hub :=
  Eval vm_compute in
    (match exec (CreateRoom "lobby" false "" 100) hub0 with Some h => h | None => hub0 end).
(** [hub0] after session 1 sends a create-room request for "lobby". *)
Definition lobby100_handled : Hub :=
  Eval vm_compute in
    (match exec (HandleCreateRoom 1 "lobby" false "") hub0 with Some h => h | None => hub0 end).
(** A 73-byte password, refused by [bcrypt72]. *)
Definition pw73 : string := repeat_str 73 "a".
(** [hub0] after session 1 asks for a private room "big" protected by [pw73]. *)
Definition big_failed : Hub :=
  Eval vm_compute in
    (match exec (@HandleCreateRoom bcrypt72 1 "big" true pw73) hub0 with Some h => h | None => hub0 end).
(** Alice's registered session processed by Unregister. *)
Definition hub_unreg1 : Hub :=
  Eval vm_compute in (match exec (run_unregister (Some 1%nat)) hub_reg1 with Some h => h | None => hub0 end).
(** Alice, bob (whose writes fail) and carol registered; alice's chat line
    broadcast. *)
Definition hub_chat0 : Hub :=
  Eval vm_compute in
    (match exec (run_register (Some 1%nat) ;;; run_register (Some 2%nat) ;;; run_register (Some 3%nat))
       (new_session 3%nat "carol" "u3" ConnOk (new_session 2%nat "bob" "u2" ConnBroken
         (new_session 1%nat "alice" "u1" ConnOk (NewHub (Some ∅) (Some demo_nats) "12:00:00" "" false))))
     with Some h => h | None => hub0 end).
Definition chat_msg : Message :=
  mkMessage "" "[12:00:00] alice: hi" MsgTypeChat (Some 1%nat) None "".
Definition hub_chat1 : Hub :=
  Eval vm_compute in (match exec (run_broadcast chat_msg) hub_chat0 with Some h => h | None => hub0 end).
Definition guest_in_vip : Client :=
  Eval vm_compute in (match client_heap vip_full !! 1%nat with Some cl => cl | None => no_client end).

(** * Proofs *)

Lemma membership_check_spec (h : Hub) : membership_check h = true <-> membership_inv h.
Proof.
  unfold membership_check, membership_inv. rewrite andb_true_iff, !forallb_forall.
  split.
  - intros [H1 H2]. split.
    + intros c r x Hx. split.
      * intros Hc.
        assert (Hin : In (r, x) (map_to_list (room_heap h)))
          by (apply list_elem_of_In, elem_of_map_to_list; done).
        specialize (H1 _ Hin). simpl in H1. rewrite forallb_forall in H1.
        apply (bool_decide_eq_true_1 _), H1, list_elem_of_In, elem_of_elements; done.
      * intros Hc.
        assert (Hin : In (c, r) (map_to_list (ClientRooms h)))
          by (apply list_elem_of_In, elem_of_map_to_list; done).
        specialize (H2 _ Hin). simpl in H2. rewrite Hx in H2.
        apply bool_decide_eq_true_1 in H2. done.
    + intros c r Hc.
      assert (Hin : In (c, r) (map_to_list (ClientRooms h)))
        by (apply list_elem_of_In, elem_of_map_to_list; done).
      specialize (H2 _ Hin). simpl in H2. destruct (room_heap h !! r); [done|discriminate].
  - intros [H1 H2]. split.
    + intros [r x] Hin. apply list_elem_of_In, elem_of_map_to_list in Hin.
      apply forallb_forall. intros c Hc. apply bool_decide_eq_true_2.
      apply list_elem_of_In, elem_of_elements in Hc. by apply (H1 c r x).
    + intros [c r] Hin. apply list_elem_of_In, elem_of_map_to_list in Hin.
      destruct (H2 c r Hin) as [x Hx]. simpl. rewrite Hx.
      apply bool_decide_eq_true_2. by apply (H1 c r x).
Qed.

(** Under the invariant a session is in at most one member set. *)
Lemma membership_inv_at_most_one (h : Hub) (c r1 r2 : nat) (x1 x2 : Room) :
  membership_inv h ->
  room_heap h !! r1 = Some x1 -> room_heap h !! r2 = Some x2 ->
  c ∈ r_Clients x1 -> c ∈ r_Clients x2 -> r1 = r2.
Proof.
  intros [H _] H1 H2 Hc1 Hc2.
  apply (H c r1 x1 H1) in Hc1. apply (H c r2 x2 H2) in Hc2. congruence.
Qed.

(** ** C1: membership invariant *)

(** C1 (code_bug).  The invariant holds after alice joins "vip", and is
    broken by the wrong-password JoinRoom of a session already in the room:
    the rollback removes alice from the member set while the index and her
    current-room pointer still name "vip". *)
Lemma C1_rejoin_wrong_password_breaks_membership :
  vip_setup hubdb = Some (None, vip_joined) /\ membership_inv vip_joined /\
  JoinRoom 1 0 "bad" vip_joined = Some (Some InvalidPassword, vip_rejoined) /\
  ClientRooms vip_rejoined !! 1%nat = Some 0%nat /\
  ~ membership_inv vip_rejoined.
Proof.
  split; [vm_compute; reflexivity|].
  split; [apply membership_check_spec; vm_compute; reflexivity|].
  split; [vm_compute; reflexivity|].
  split; [vm_compute; reflexivity|].
  rewrite <- membership_check_spec. vm_compute. discriminate.
Qed.

(** ** Frame reasoning: what a computation leaves unchanged *)

Create HintDb frame.

Section Frame.
Context (R : Hub -> Hub -> Prop) `{!PreOrder R}.

Definition frame {A} (m : M A) : Prop :=
  forall h a h', m h = Some (a, h') -> R h h'.

Lemma frame_ret {A} (a : A) : frame (ret a).
Proof. intros h a' h' E. injection E as <- <-. reflexivity. Qed.

Lemma frame_get : frame get.
Proof. intros h a' h' E. injection E as <- <-. reflexivity. Qed.

Lemma frame_panic {A} : frame (@panic A).
Proof. intros h a h' E. discriminate. Qed.

Lemma frame_modify (f : Hub -> Hub) : (forall h, R h (f h)) -> frame (modify f).
Proof. intros Hf h a h' E. injection E as <- <-. apply Hf. Qed.

Lemma frame_bind {A B} (m : M A) (k : A -> M B) :
  frame m -> (forall a, frame (k a)) -> frame (bind m k).
Proof.
  intros Hm Hk h b h'' E. unfold bind in E.
  destruct (m h) as [[a h']|] eqn:Em; [|discriminate].
  transitivity h'; [exact (Hm _ _ _ Em) | exact (Hk a _ _ _ E)].
Qed.

Lemma frame_load_room r : frame (load_room r).
Proof.
  intros h a h' E. unfold load_room in E.
  destruct (room_heap h !! r); [injection E as <- <-; reflexivity | discriminate].
Qed.

Lemma frame_load_client c : frame (load_client c).
Proof.
  intros h a h' E. unfold load_client in E.
  destruct (client_heap h !! c); [injection E as <- <-; reflexivity | discriminate].
Qed.

Lemma frame_mapM_ (f : nat -> M unit) (l : list nat) :
  (forall x, frame (f x)) -> frame (mapM_ f l).
Proof.
  intros Hf. induction l as [|x l IH]; simpl.
  - apply frame_ret.
  - apply frame_bind; [apply Hf | intros _; exact IH].
Qed.
End Frame.

#[export] Hint Resolve frame_ret frame_get frame_panic frame_load_room frame_load_client
  : frame.

(** Decompose a computation into its steps. *)
Ltac frame_step :=
  match goal with
  | |- frame _ (bind _ _) => refine (frame_bind _ _ _ _ _); [|intros ?]
  | |- frame _ (match ?x with _ => _ end) => destruct x
  | |- frame _ (if ?b then _ else _) => destruct b
  | |- frame _ (let '(_, _) := ?p in _) => destruct p
  | |- frame _ (mapM_ _ _) => refine (frame_mapM_ _ _ _ _); intros ?
  | |- frame _ (modify _) =>
      refine (frame_modify _ _ _); intros ?; first [reflexivity | solve [eauto with frame]]
  | |- frame _ (ret _) => refine (frame_ret _ _)
  | |- frame _ get => refine (frame_get _)
  | |- frame _ panic => refine (frame_panic _)
  | |- frame _ (load_room _) => refine (frame_load_room _ _)
  | |- frame _ (load_client _) => refine (frame_load_client _ _)
  | |- frame _ _ => solve [eauto with frame]
  end.
Ltac frame_auto := repeat frame_step.

(** The relation "field [f] unchanged". *)
Definition same {B} (f : Hub -> B) (h h' : Hub) : Prop := f h' = f h.
#[export] Instance same_preorder {B} (f : Hub -> B) : PreOrder (same f).
Proof. split; [intros h; reflexivity | intros h1 h2 h3 E1 E2; unfold same in *; congruence]. Qed.

Lemma bind_Some {A B} (m : M A) (k : A -> M B) (h h'' : Hub) (b : B) :
  bind m k h = Some (b, h'') <-> exists a h', m h = Some (a, h') /\ k a h' = Some (b, h'').
Proof.
  unfold bind. split.
  - destruct (m h) as [[a h']|]; [eauto | discriminate].
  - intros (a & h' & -> & E). exact E.
Qed.

Tactic Notation "split_bind" hyp(E) "as" ident(a) ident(h1) ident(E1) :=
  apply bind_Some in E as (a & h1 & E1 & E).

(** *** Bus publications *)

Lemma broadcast_loop_published n m cs rm : frame (same published) (broadcast_loop n m cs rm).
Proof. revert rm. induction cs as [|c cs IH]; intros rm; simpl; frame_auto. Qed.

Lemma send_Unregister_published c : frame (same published) (send_Unregister c).
Proof. unfold send_Unregister. frame_auto. Qed.

Lemma global_loop_published m cs rm : frame (same published) (global_loop m cs rm).
Proof. revert rm. induction cs as [|c cs IH]; intros rm; simpl; frame_auto. Qed.

Lemma remove_failed_published c : frame (same published) (remove_failed c).
Proof. unfold remove_failed. frame_auto. Qed.

#[export] Hint Resolve broadcast_loop_published send_Unregister_published
  global_loop_published remove_failed_published : frame.

(** BroadcastToRoom publishes at most one message, to the room's subject,
    and only when the message id is empty. *)
Lemma BroadcastToRoom_published r m h u h' :
  BroadcastToRoom r m h = Some (u, h') ->
  published h' = published h \/
  (MessageID m = "" /\ exists x p, room_heap h !! r = Some x /\
     published h' = published h ++ [(RoomSubject (r_Name x), p)]).
Proof.
  intros E. unfold BroadcastToRoom in E.
  split_bind E as x h0 E0. unfold load_room in E0.
  destruct (room_heap h !! r) as [x'|] eqn:Hx; [|discriminate].
  injection E0 as <- <-.
  split_bind E as h0 h1 E0. injection E0 as <- <-.
  split_bind E as t h1 E0.
  assert (Hrest : published h' = published h1).
  { split_bind E as res h2 E1.
    pose proof (broadcast_loop_published _ _ _ _ _ _ _ E1) as H0.
    destruct res as [l|]; [|injection E as _ <-; exact H0].
    pose proof (frame_mapM_ (same published) _ l send_Unregister_published _ _ _ E) as H1.
    unfold same in *. congruence. }
  destruct (NATSEnabled h && bool_decide (NATS h <> None) && str_eqb (MessageID m) "") eqn:C.
  - split_bind E0 as b h2 E1. injection E0 as _ <-.
    unfold Publish in E1. split_bind E1 as h3 h4 E2. injection E2 as <- <-.
    destruct (NATS h) as [n|]; [|discriminate].
    destruct (nats_connected n).
    + split_bind E1 as t' h5 E3. injection E1 as _ <-. injection E3 as _ <-.
      right. split.
      * apply andb_true_iff in C as [_ C]. unfold str_eqb in C.
        exact (bool_decide_eq_true_1 _ C).
      * exists x'. eexists. split; [reflexivity|]. rewrite Hrest. reflexivity.
    + injection E1 as _ <-. left. exact Hrest.
  - injection E0 as _ <-. left. exact Hrest.
Qed.

Lemma RoomSubject_not_global n : RoomSubject n <> SubjectGlobalChat.
Proof. unfold RoomSubject, SubjectGlobalChat, SubjectRoomPrefix. simpl. discriminate. Qed.

Lemma Publish_published s m h b h' :
  Publish s m h = Some (b, h') ->
  published h' = published h \/ exists p, published h' = published h ++ [(s, p)].
Proof.
  unfold Publish. intros E. split_bind E as h0 h1 E0. injection E0 as <- <-.
  destruct (NATS h) as [n|]; [|discriminate].
  destruct (nats_connected n).
  - split_bind E as t h2 E0. injection E0 as _ <-. injection E as _ <-.
    right. eexists. reflexivity.
  - injection E as _ <-. left. reflexivity.
Qed.

(** C4: no re-publish.  BroadcastToRoom only appends publications when the
    message id is empty; the Broadcast case of the event loop only publishes
    to chat.global a message with no target room and an empty message id,
    and publishes nothing at all for a message with a non-empty id. *)
Theorem C4_no_republish (h h' : Hub) (r : nat) (m : Message) (u : unit) :
  (BroadcastToRoom r m h = Some (u, h') ->
   exists new, published h' = published h ++ new /\ (new <> [] -> MessageID m = "")) /\
  (run_broadcast m h = Some (u, h') ->
   exists new, published h' = published h ++ new /\
     (forall e, e ∈ new -> fst e = SubjectGlobalChat -> MRoom m = None /\ MessageID m = "") /\
     (MessageID m <> "" -> new = [])).
Proof.
  split.
  - intros E. destruct (BroadcastToRoom_published _ _ _ _ _ E) as [P | (Hid & x & p & _ & P)].
    + exists []. rewrite app_nil_r. split; [exact P | intros []; reflexivity].
    + eexists. split; [exact P | intros _; exact Hid].
  - intros E. unfold run_broadcast in E.
    split_bind E as h0 h1 E0. injection E0 as <- <-.
    split_bind E as t h2 E0.
    assert (Head : exists hn, published h2 = published h ++ hn /\
              (hn <> [] -> MRoom m = None /\ MessageID m = "") /\
              (forall e, e ∈ hn -> fst e = SubjectGlobalChat)).
    { destruct (NATSEnabled h && bool_decide (NATS h <> None) && bool_decide (MRoom m = None)
                && str_eqb (MessageID m) "") eqn:C.
      - split_bind E0 as b h3 E1. injection E0 as _ <-.
        apply andb_true_iff in C as [C C4]. apply andb_true_iff in C as [_ C3].
        unfold str_eqb in C4.
        apply bool_decide_eq_true_1 in C3. apply bool_decide_eq_true_1 in C4.
        destruct (Publish_published _ _ _ _ _ E1) as [P | [p P]].
        + exists []. rewrite app_nil_r. split; [exact P|]. split; [intros []; reflexivity|].
          intros e He. apply elem_of_nil in He as [].
        + exists [(SubjectGlobalChat, p)]. split; [exact P|]. split; [intros _; auto|].
          intros e He. apply list_elem_of_singleton in He as ->. reflexivity.
      - injection E0 as _ <-. exists []. rewrite app_nil_r.
        split; [reflexivity|]. split; [intros []; reflexivity|].
        intros e He. apply elem_of_nil in He as []. }
    assert (Tail : exists tn, published h' = published h2 ++ tn /\
              (tn <> [] -> MessageID m = "") /\
              (forall e, e ∈ tn -> fst e <> SubjectGlobalChat)).
    { destruct (MRoom m) as [r'|].
      - destruct (BroadcastToRoom_published _ _ _ _ _ E) as [P | (Hid & x & p & _ & P)].
        + exists []. rewrite app_nil_r. split; [exact P|]. split; [intros []; reflexivity|].
          intros e He. apply elem_of_nil in He as [].
        + exists [(RoomSubject (r_Name x), p)]. split; [exact P|]. split; [intros _; exact Hid|].
          intros e He. apply list_elem_of_singleton in He as ->. apply RoomSubject_not_global.
      - split_bind E as h3 h4 E1. injection E1 as <- <-.
        split_bind E as rm h5 E1.
        pose proof (global_loop_published _ _ _ _ _ _ E1) as P1.
        pose proof (frame_mapM_ (same published) _ rm remove_failed_published _ _ _ E) as P2.
        unfold same in *. exists []. rewrite app_nil_r.
        split; [congruence|]. split; [intros []; reflexivity|].
        intros e He. apply elem_of_nil in He as []. }
    destruct Head as (hn & Ph & Hn1 & Hn2). destruct Tail as (tn & Pt & Tn1 & Tn2).
    exists (hn ++ tn). split; [rewrite Pt, Ph, app_assoc; reflexivity|]. split.
    + intros e He Hs. apply elem_of_app in He as [He | He].
      * apply Hn1. intros ->. apply elem_of_nil in He as [].
      * exfalso. exact (Tn2 e He Hs).
    + intros Hid. destruct hn as [|e hn].
      * destruct tn as [|e tn]; [reflexivity|]. exfalso. apply Hid, Tn1. discriminate.
      * exfalso. apply Hid, Hn1. discriminate.
Qed.

(** ** C5: no loopback *)

Lemma GetServerID_nonempty n : GetServerID n <> "".
Proof. unfold GetServerID. simpl. discriminate. Qed.

Lemma handle_own (h : Hub) (n : NatsClient) (hd : Handler) (m : Message) :
  NATS h = Some n -> ServerID m = GetServerID n -> handle hd m h = Some (tt, h).
Proof.
  intros Hn Hs. unfold handle, bind, get. rewrite Hn, Hs.
  assert (E1 : str_eqb (GetServerID n) "" = false)
    by (apply bool_decide_eq_false_2, GetServerID_nonempty).
  assert (E2 : str_eqb (GetServerID n) (GetServerID n) = true)
    by (apply bool_decide_eq_true_2; reflexivity).
  rewrite E1, E2. reflexivity.
Qed.

(** C5: a bus delivery carrying this server's own id runs every subscribed
    callback (the chat.global one and the per-room ones alike) and leaves the
    hub exactly as it was: nothing is written to a session, queued on the
    Broadcast channel or published. *)
Theorem C5_no_loopback (h : Hub) (n : NatsClient) (subject : string) (m : Message) :
  NATS h = Some n -> ServerID m = GetServerID n -> deliver subject m h = Some (tt, h).
Proof.
  intros Hn Hs. unfold deliver, bind at 1, get.
  induction (subs h) as [|[s hd] l IH]; simpl; [reflexivity|].
  unfold bind at 1. destruct (str_eqb s subject).
  - rewrite (handle_own h n hd _ Hn); [exact IH | exact Hs].
  - exact IH.
Qed.

(** ** C2: private room passwords *)

(** A successful CreateRoom stores [NewRoom name private password maxClients]
    at a fresh reference. *)
Lemma CreateRoom_heap `{Bcrypt} name private password maxc h r e h1 :
  CreateRoom name private password maxc h = Some ((Some r, e), h1) ->
  r = next_ref h /\ room_heap h1 !! r = Some (NewRoom name private password maxc).
Proof.
  unfold CreateRoom, Publish, bind, get, modify, ret, panic. intros E.
  repeat (case_match; simplify_eq/=); split; try reflexivity;
    apply lookup_insert_eq.
Qed.

Lemma AddClient_room (x : Room) (c : nat) :
  Z.of_nat (size (r_Clients x)) < r_MaxClients x ->
  AddClient x c = (true, set_room_Clients x ({[c]} ∪ r_Clients x)).
Proof.
  intros Hs. unfold AddClient.
  destruct (Z.of_nat (size (r_Clients x)) >=? r_MaxClients x) eqn:E; [|reflexivity].
  apply Z.geb_le in E. lia.
Qed.

Lemma AddClient_full (x : Room) (c : nat) :
  r_MaxClients x <= Z.of_nat (size (r_Clients x)) -> AddClient x c = (false, x).
Proof.
  intros Hs. unfold AddClient.
  destruct (Z.of_nat (size (r_Clients x)) >=? r_MaxClients x) eqn:E; [reflexivity|].
  rewrite Z.geb_leb in E. apply Z.leb_gt in E. lia.
Qed.

Lemma CompareHashAndPassword_short `{Bcrypt} (hashed p : string) :
  (String.length hashed < minHashSize)%nat -> CompareHashAndPassword hashed p = false.
Proof.
  intros Hl. unfold CompareHashAndPassword.
  destruct (String.length hashed <? minHashSize)%nat eqn:E; [reflexivity|].
  apply Nat.ltb_ge in E. lia.
Qed.

(** C2 (code_bug).  CreateRoom keeps the clear-text password in the in-memory
    room (only the copy written to the repository is hashed), so the bcrypt
    comparison of JoinRoom fails for the creator's own password: for any
    bcrypt implementation, joining the new private room with the password it
    was created with is refused with InvalidPassword. *)
Theorem C2_private_password_kept_in_clear `{Bcrypt} (h h1 : Hub) (name p : string)
    (maxc : Z) (r c : nat) :
  CreateRoom name true p maxc h = Some ((Some r, None), h1) ->
  0 < maxc -> (String.length p < minHashSize)%nat ->
  (exists x, room_heap h1 !! r = Some x /\ r_Password x = p /\
             CompareHashAndPassword (r_Password x) p = false) /\
  exists h2, JoinRoom c r p h1 = Some (Some InvalidPassword, h2).
Proof.
  intros E Hmax Hlen. destruct (CreateRoom_heap _ _ _ _ _ _ _ _ E) as [_ Hx].
  split.
  - eexists. split; [exact Hx|]. split; [reflexivity|]. by apply CompareHashAndPassword_short.
  - unfold JoinRoom, call_room, load_room, bind, ret. rewrite Hx. cbn -[AddClient].
    repeat (rewrite lookup_insert_eq; cbn -[AddClient VerifyPassword]).
    rewrite AddClient_room
      by (cbn [r_Clients SetCreator set_room_Creator NewRoom]; rewrite size_empty; simpl; lia).
    cbn -[VerifyPassword].
    repeat (rewrite lookup_insert_eq; cbn -[VerifyPassword]).
    unfold VerifyPassword. rewrite CompareHashAndPassword_short by exact Hlen. simpl.
    rewrite lookup_insert_eq. eexists. reflexivity.
Qed.

(** ** The error paths of JoinRoom *)

(** The room as left by the first statement of JoinRoom. *)
Definition claimed (x : Room) (c : nat) : Room :=
  match r_Creator x with None => SetCreator x c | Some _ => x end.

Lemma claimed_eq (x : Room) (c : nat) :
  snd (match r_Creator x with None => (tt, SetCreator x c) | Some _ => (tt, x) end)
  = claimed x c.
Proof. unfold claimed. destruct (r_Creator x); reflexivity. Qed.

Lemma claimed_fields (x : Room) (c : nat) :
  r_Active (claimed x c) = r_Active x /\ r_Clients (claimed x c) = r_Clients x /\
  r_MaxClients (claimed x c) = r_MaxClients x /\ r_Private (claimed x c) = r_Private x /\
  r_Password (claimed x c) = r_Password x /\ r_Name (claimed x c) = r_Name x.
Proof. unfold claimed. destruct (r_Creator x); repeat split. Qed.

Lemma upd_heaps_insert_insert (r : nat) (a b : Room) (h : Hub) :
  upd_heaps (<[r := a]>) id id (upd_heaps (<[r := b]>) id id h) = upd_heaps (<[r := a]>) id id h.
Proof. unfold upd_heaps. simpl. rewrite insert_insert_eq. reflexivity. Qed.

(** Each error of JoinRoom leaves every part of the hub unchanged except the
    target room, whose creator is claimed and whose member set is either
    unchanged (RoomInactive, RoomFull) or has lost the caller (InvalidPassword). *)
Lemma JoinRoom_error `{Bcrypt} (h h' : Hub) (c r : nat) (pw : string) (e : HubError) :
  JoinRoom c r pw h = Some (Some e, h') ->
  exists x, room_heap h !! r = Some x /\
  ((e = RoomInactive /\ r_Active x = false /\
      h' = upd_heaps (<[r := claimed x c]>) id id h) \/
   (e = RoomFull /\ r_Active x = true /\
      r_MaxClients x <= Z.of_nat (size (r_Clients x)) /\
      h' = upd_heaps (<[r := claimed x c]>) id id h) \/
   (e = InvalidPassword /\ r_Active x = true /\
      Z.of_nat (size (r_Clients x)) < r_MaxClients x /\ r_Private x = true /\
      VerifyPassword pw (r_Password x) = false /\
      h' = upd_heaps (<[r := set_room_Clients (claimed x c) (({[c]} ∪ r_Clients x) ∖ {[c]})]>)
             id id h)).
Proof.
  intros E. unfold JoinRoom, call_room, load_room, bind, ret in E.
  destruct (room_heap h !! r) as [x|] eqn:Hx; [|discriminate].
  exists x. split; [reflexivity|].
  rewrite claimed_eq in E.
  destruct (claimed_fields x c) as (Ha & Hs & Hm & Hp & Hw & _).
  cbn -[AddClient VerifyPassword leaveRoomInternal BroadcastToRoom Subscribe conn_write claimed]
    in E.
  rewrite lookup_insert_eq in E.
  cbn -[AddClient VerifyPassword leaveRoomInternal BroadcastToRoom Subscribe conn_write claimed]
    in E.
  rewrite Ha in E. destruct (r_Active x) eqn:HA; simpl in E.
  2:{ injection E as <- <-. left. auto. }
  cbn -[AddClient VerifyPassword leaveRoomInternal BroadcastToRoom Subscribe conn_write claimed]
    in E.
  rewrite lookup_insert_eq in E.
  destruct (decide (Z.of_nat (size (r_Clients x)) < r_MaxClients x)) as [Hlt|Hge].
  - rewrite AddClient_room in E by congruence.
    cbn -[VerifyPassword leaveRoomInternal BroadcastToRoom Subscribe conn_write claimed] in E.
    rewrite lookup_insert_eq in E.
    cbn -[VerifyPassword leaveRoomInternal BroadcastToRoom Subscribe conn_write claimed] in E.
    rewrite Hp, Hw in E.
    destruct (r_Private x && negb (VerifyPassword pw (r_Password x))) eqn:C.
    + cbn [room_heap upd_heaps] in E. rewrite lookup_insert_eq in E. simpl in E.
      injection E as <- <-.
      apply andb_true_iff in C as [C1 C2]. apply negb_true_iff in C2.
      right; right. repeat split; auto.
      rewrite !upd_heaps_insert_insert. rewrite Hs. reflexivity.
    + exfalso. repeat (case_match; try discriminate).
  - rewrite AddClient_full in E by (rewrite Hs, Hm; lia). simpl in E. injection E as <- <-.
    right; left. repeat split; auto; [lia|]. rewrite upd_heaps_insert_insert. reflexivity.
Qed.

(** *** Subscriptions, the bus client and room names *)

(** Every room keeps its name (its member set and creator may change). *)
Definition names_kept (h h' : Hub) : Prop :=
  forall r x, room_heap h !! r = Some x ->
  exists x', room_heap h' !! r = Some x' /\ r_Name x' = r_Name x.

(** The subscriptions, the bus client, the bus flag and the room names are
    unchanged. *)
Definition bus_kept (h h' : Hub) : Prop :=
  subs h' = subs h /\ NATS h' = NATS h /\ NATSEnabled h' = NATSEnabled h /\ names_kept h h'.

#[export] Instance bus_kept_preorder : PreOrder bus_kept.
Proof.
  split.
  - intros h. unfold bus_kept. repeat split. intros r x Hx. exists x. auto.
  - intros h1 h2 h3 (S1 & N1 & E1 & K1) (S2 & N2 & E2 & K2).
    unfold bus_kept. repeat split; try congruence.
    intros r x Hx. destruct (K1 r x Hx) as (y & Hy & Ny).
    destruct (K2 r y Hy) as (z & Hz & Nz). exists z. split; [exact Hz | congruence].
Qed.

Lemma bus_kept_upd_core f g k u h : bus_kept h (upd_core f g k u h).
Proof. unfold bus_kept. repeat split. intros r x Hx. exists x. split; [exact Hx | reflexivity]. Qed.

Lemma bus_kept_upd_effects rp p b u w cl h : bus_kept h (upd_effects rp id p b u w cl h).
Proof. unfold bus_kept. repeat split. intros r x Hx. exists x. split; [exact Hx | reflexivity]. Qed.

Lemma bus_kept_upd_clients g n h : bus_kept h (upd_heaps id g n h).
Proof. unfold bus_kept. repeat split. intros r x Hx. exists x. split; [exact Hx | reflexivity]. Qed.

Lemma frame_call_room_bus {A} r (f : Room -> A * Room) :
  (forall x, r_Name (snd (f x)) = r_Name x) -> frame bus_kept (call_room r f).
Proof.
  intros Hf h a h' E. unfold call_room in E.
  destruct (room_heap h !! r) as [y|] eqn:Hy; [|discriminate]. injection E as _ <-.
  unfold bus_kept. repeat split. intros r' x Hx. cbn [room_heap upd_heaps].
  destruct (decide (r' = r)) as [->|Hne].
  - rewrite lookup_insert_eq. eexists. split; [reflexivity|]. rewrite Hf. congruence.
  - rewrite lookup_insert_ne by congruence. exists x. auto.
Qed.

Lemma frame_call_client_bus {A} c (f : Client -> A * Client) : frame bus_kept (call_client c f).
Proof.
  intros h a h' E. unfold call_client in E.
  destruct (client_heap h !! c); [|discriminate]. injection E as _ <-. apply bus_kept_upd_clients.
Qed.

#[export] Hint Resolve bus_kept_upd_core bus_kept_upd_effects bus_kept_upd_clients
  frame_call_client_bus : frame.
#[export] Hint Extern 2 (frame bus_kept (call_room _ _)) =>
  refine (frame_call_room_bus _ _ _); intros ?; cbv beta;
  unfold AddClient; repeat case_match; reflexivity : frame.

Lemma Publish_bus s m : frame bus_kept (Publish s m).
Proof. unfold Publish. frame_auto. Qed.

Lemma conn_write_bus c p : frame bus_kept (conn_write c p).
Proof. unfold conn_write. frame_auto. Qed.

Lemma send_Unregister_bus c : frame bus_kept (send_Unregister c).
Proof. unfold send_Unregister. frame_auto. Qed.

#[export] Hint Resolve Publish_bus conn_write_bus send_Unregister_bus : frame.

Lemma broadcast_loop_bus n m cs rm : frame bus_kept (broadcast_loop n m cs rm).
Proof. revert rm. induction cs as [|c cs IH]; intros rm; simpl; frame_auto. Qed.

#[export] Hint Resolve broadcast_loop_bus : frame.

Lemma BroadcastToRoom_bus r m : frame bus_kept (BroadcastToRoom r m).
Proof. unfold BroadcastToRoom. frame_auto. Qed.

#[export] Hint Resolve BroadcastToRoom_bus : frame.

Lemma leaveRoomInternal_bus c : frame bus_kept (leaveRoomInternal c).
Proof. unfold leaveRoomInternal. frame_auto. Qed.

#[export] Hint Resolve leaveRoomInternal_bus : frame.

(** Conclude [R h h'] from [m h = Some (a, h')] when [m] is a frame of [R]. *)
Ltac frame_of R E :=
  match type of E with
  | ?m ?h = Some (?a, ?h') =>
      let F := fresh "F" in
      assert (F : frame R m) by frame_auto; exact (F h a h' E)
  end.



(** ** Wrong passwords, claimed creators and room deletion *)

(** JoinRoom on a private room with a password that fails verification
    always returns an error (and never panics). *)
Lemma JoinRoom_refused `{Bcrypt} (h : Hub) (c r : nat) (pw : string) (x : Room) :
  room_heap h !! r = Some x -> r_Private x = true -> VerifyPassword pw (r_Password x) = false ->
  exists e h', JoinRoom c r pw h = Some (Some e, h').
Proof.
  intros Hx Hpriv Hv. unfold JoinRoom, call_room, load_room, bind, ret. rewrite Hx, claimed_eq.
  destruct (claimed_fields x c) as (Ha & Hs & Hm & Hp & Hw & _).
  cbn -[AddClient VerifyPassword leaveRoomInternal BroadcastToRoom Subscribe conn_write claimed].
  rewrite lookup_insert_eq.
  cbn -[AddClient VerifyPassword leaveRoomInternal BroadcastToRoom Subscribe conn_write claimed].
  rewrite Ha. destruct (r_Active x); simpl; [|eauto].
  cbn -[AddClient VerifyPassword leaveRoomInternal BroadcastToRoom Subscribe conn_write claimed].
  rewrite lookup_insert_eq.
  destruct (decide (Z.of_nat (size (r_Clients x)) < r_MaxClients x)) as [Hlt|Hge].
  - rewrite AddClient_room by congruence.
    cbn -[VerifyPassword leaveRoomInternal BroadcastToRoom Subscribe conn_write claimed].
    rewrite lookup_insert_eq.
    cbn -[VerifyPassword leaveRoomInternal BroadcastToRoom Subscribe conn_write claimed].
    rewrite Hp, Hw, Hpriv, Hv. simpl. rewrite lookup_insert_eq. eauto.
  - rewrite AddClient_full by (rewrite Hs, Hm; lia). simpl. eauto.
Qed.

(** C6 (amended).  For a session that is not yet a member of a private room,
    a password that fails verification is refused and the member set is left
    as it was; the refusal is InvalidPassword only when the room is active and
    has room for one more member: an inactive room answers RoomInactive and a
    full room RoomFull, before the password is looked at. *)
Theorem C6_wrong_password_refused `{Bcrypt} (h : Hub) (c r : nat) (pw : string) (x : Room) :
  room_heap h !! r = Some x -> r_Private x = true -> VerifyPassword pw (r_Password x) = false ->
  c ∉ r_Clients x ->
  exists e h' x', JoinRoom c r pw h = Some (Some e, h') /\
    room_heap h' !! r = Some x' /\ r_Clients x' = r_Clients x /\
    (e = InvalidPassword <-> r_Active x = true /\ Z.of_nat (size (r_Clients x)) < r_MaxClients x) /\
    (e = RoomInactive <-> r_Active x = false) /\
    (e = RoomFull <-> r_Active x = true /\ r_MaxClients x <= Z.of_nat (size (r_Clients x))).
Proof.
  intros Hx Hpriv Hv Hc. destruct (JoinRoom_refused h c r pw x Hx Hpriv Hv) as (e & h' & E).
  exists e, h'. destruct (JoinRoom_error _ _ _ _ _ _ E) as (x0 & Hx0 & Cases).
  rewrite Hx in Hx0. injection Hx0 as <-.
  destruct (claimed_fields x c) as (Ha & Hs & _).
  destruct Cases as [(-> & HA & ->) | [(-> & HA & Hle & ->) | (-> & HA & Hlt & _ & _ & ->)]].
  - exists (claimed x c). split; [exact E|]. split; [apply lookup_insert_eq|]. split; [exact Hs|].
    rewrite HA. intuition (try discriminate; try congruence).
  - exists (claimed x c). split; [exact E|]. split; [apply lookup_insert_eq|]. split; [exact Hs|].
    rewrite HA. intuition (try discriminate; try congruence; try lia).
  - eexists. split; [exact E|]. split; [apply lookup_insert_eq|].
    split; [simpl; set_solver|].
    rewrite HA. intuition (try discriminate; try congruence; try lia).
Qed.

Lemma IsCreator_spec (x : Room) (c : nat) : IsCreator x c = true <-> r_Creator x = Some c.
Proof.
  unfold IsCreator. destruct (r_Creator x) as [c'|]; [|split; discriminate].
  rewrite Nat.eqb_eq. split; congruence.
Qed.

(** Only the creator recorded in the room passes the check of DeleteRoom. *)
Lemma DeleteRoom_creator_check (h : Hub) (c : nat) (name : string) (r : nat) (x : Room) :
  Rooms h !! name = Some r -> room_heap h !! r = Some x -> r_Creator x = Some c ->
  (forall c', c' <> c -> DeleteRoom c' name h = Some (Some NotCreator, h)) /\
  (is_Some (client_heap h !! c) -> exists h'', DeleteRoom c name h = Some (None, h'')).
Proof.
  intros HR Hx Hc.
  cbv [DeleteRoom bind get load_room load_client send_Broadcast modify ret].
  rewrite HR, Hx. split.
  - intros c' Hne. destruct (IsCreator x c') eqn:Hi; [|reflexivity].
    apply IsCreator_spec in Hi. congruence.
  - intros [cl Hcl]. assert (Hi : IsCreator x c = true) by (apply IsCreator_spec; exact Hc).
    rewrite Hi. simpl. rewrite Hcl. eauto.
Qed.

(** C10.  A JoinRoom that fails on a room with no creator still makes the
    caller its creator; if the caller was not a member it is still not one,
    yet it alone can delete the room. *)
Theorem C10_failed_join_claims_creator `{Bcrypt} (h h' : Hub) (c r : nat) (pw : string)
    (e : HubError) (x : Room) :
  room_heap h !! r = Some x -> r_Creator x = None -> c ∉ r_Clients x ->
  JoinRoom c r pw h = Some (Some e, h') ->
  (e = RoomInactive \/ e = RoomFull \/ e = InvalidPassword) /\
  exists x', room_heap h' !! r = Some x' /\ r_Creator x' = Some c /\ (c ∉ r_Clients x') /\
    forall name, Rooms h' !! name = Some r ->
      (forall c', c' <> c -> DeleteRoom c' name h' = Some (Some NotCreator, h')) /\
      (is_Some (client_heap h' !! c) -> exists h'', DeleteRoom c name h' = Some (None, h'')).
Proof.
  intros Hx Hcr Hc E. destruct (JoinRoom_error _ _ _ _ _ _ E) as (x0 & Hx0 & Cases).
  rewrite Hx in Hx0. injection Hx0 as <-.
  assert (Hcl : claimed x c = SetCreator x c) by (unfold claimed; rewrite Hcr; reflexivity).
  assert (Main : exists x', h' = upd_heaps (<[r := x']>) id id h /\ r_Creator x' = Some c /\
                   (c ∉ r_Clients x') /\ (e = RoomInactive \/ e = RoomFull \/ e = InvalidPassword)).
  { destruct Cases as [(-> & _ & ->) | [(-> & _ & _ & ->) | (-> & _ & _ & _ & _ & ->)]].
    - exists (claimed x c). rewrite Hcl. do 3 (split; [first [reflexivity | exact Hc]|]). auto.
    - exists (claimed x c). rewrite Hcl. do 3 (split; [first [reflexivity | exact Hc]|]). auto.
    - eexists. split; [reflexivity|]. rewrite Hcl. simpl. split; [reflexivity|].
      split; [set_solver | auto]. }
  destruct Main as (x' & -> & Hcr' & Hc' & He). split; [exact He|].
  exists x'. assert (Hl : room_heap (upd_heaps (<[r := x']>) id id h) !! r = Some x')
    by apply lookup_insert_eq.
  split; [exact Hl|]. split; [exact Hcr'|]. split; [exact Hc'|].
  intros name HR. exact (DeleteRoom_creator_check _ c name r x' HR Hl Hcr').
Qed.

(** C7 (amended).  A successful DeleteRoom was made by the room's creator; it
    removes the name from the registry and queues one deletion notice on the
    Broadcast channel, and changes nothing else: the client-to-room index,
    the sessions (their current-room pointers included) and the room objects
    (their member sets included) are left as they were. *)
Theorem C7_delete_room_effects (h h' : Hub) (c : nat) (name : string) :
  DeleteRoom c name h = Some (None, h') ->
  exists r x cl, Rooms h !! name = Some r /\ room_heap h !! r = Some x /\
    r_Creator x = Some c /\ client_heap h !! c = Some cl /\
    Rooms h' = delete name (Rooms h) /\
    Broadcast_q h' = Broadcast_q h ++ [mkMessage ""
      ("[" +:+ clock h +:+ "] Room '" +:+ name +:+ "' has been deleted by " +:+ c_Name cl)
      MsgTypeDeleteRoom None None ""] /\
    ClientRooms h' = ClientRooms h /\ client_heap h' = client_heap h /\
    room_heap h' = room_heap h /\ Clients h' = Clients h.
Proof.
  intros E. cbv [DeleteRoom bind get load_room load_client send_Broadcast modify ret] in E.
  destruct (Rooms h !! name) as [r|] eqn:HR; [|discriminate].
  destruct (room_heap h !! r) as [x|] eqn:Hx; [|discriminate].
  destruct (IsCreator x c) eqn:Hi; simpl in E; [|discriminate].
  destruct (client_heap h !! c) as [cl|] eqn:Hcl; [|discriminate].
  injection E as <-. exists r, x, cl. apply IsCreator_spec in Hi.
  repeat split; assumption.
Qed.

(** C8 (code bug).  Register does not check whether the session is already
    registered: for a session already in the registry it leaves the registry
    as it is but still adds one to the user count.  (The latch itself is
    resolved at most once: once RegisteredOnce has fired, the session is not
    touched again.) *)
Theorem C8_register_registered_session (h h' : Hub) (c : nat) :
  c ∈ Clients h -> exec (run_register (Some c)) h = Some h' ->
  Clients h' = Clients h /\ UserCount h' = UserCount h + 1 /\
  (forall cl, client_heap h !! c = Some cl -> c_RegisteredOnce_done cl = true ->
     client_heap h' = client_heap h).
Proof.
  intros Hin E.
  cbv [exec run_register bind modify load_client ret panic store_client option_map] in E.
  cbn [client_heap upd_core] in E.
  destruct (client_heap h !! c) as [cl|] eqn:Hcl; [|discriminate].
  assert (HC : {[c]} ∪ Clients h = Clients h) by set_solver.
  destruct (c_RegisteredOnce_done cl) eqn:Hd.
  - injection E as <-. simpl. split; [exact HC|]. split; [lia|]. reflexivity.
  - destruct (c_Registered_closed cl); [discriminate|]. injection E as <-. simpl.
    split; [exact HC|]. split; [lia|]. intros cl' Hcl' Hd'. congruence.
Qed.

(** C9 (amended).  The name check of CreateRoom counts bytes: CreateRoom
    answers InvalidName exactly for the empty name and for names longer than
    50 bytes, whatever the other arguments and the hub. *)
Theorem C9_name_check_counts_bytes `{Bcrypt} (name password : string) (private : bool)
    (maxc : Z) (h : Hub) :
  eval (CreateRoom name private password maxc) h = Some (None, Some InvalidName) <->
  name = "" \/ (50 < String.length name)%nat.
Proof.
  unfold eval. split.
  - unfold CreateRoom. destruct (str_eqb name "" || (50 <? String.length name)%nat) eqn:C.
    + intros _. apply orb_true_iff in C as [C|C].
      * left. exact (bool_decide_eq_true_1 _ C).
      * right. apply Nat.ltb_lt, C.
    + unfold Publish, bind, get, modify, ret, panic. intros E.
      repeat (case_match; simplify_eq/=).
  - intros Hn. unfold CreateRoom.
    assert (C : str_eqb name "" || (50 <? String.length name)%nat = true).
    { destruct Hn as [->|Hl]; [reflexivity|]. apply orb_true_iff. right. apply Nat.ltb_lt, Hl. }
    rewrite C. reflexivity.
Qed.

(** ** Counterexamples *)


(** C6: the persisted private room "vip" filled with its 100 members; a
    101st session giving a wrong password is told RoomFull, not
    InvalidPassword. *)
Lemma C6_full_private_room_answers_full :
  fill_vip hubfull0 = Some (tt, vip_full) /\
  option_map (fun x => (r_Private x, VerifyPassword "bad" (r_Password x), size (r_Clients x)))
    (room_heap vip_full !! 0%nat) = Some (true, false, 100%nat) /\
  eval (JoinRoom 101 0 "bad") vip_full = Some (Some RoomFull).
Proof. repeat split; vm_compute; reflexivity. Qed.

(** C7: alice creates, joins and deletes "lobby": the deletion succeeds, the
    name is gone from the registry, but the index still maps alice to the
    room, her current-room pointer still names it and she is still in its
    member set. *)
Lemma C7_deleted_room_keeps_member_pointers :
  lobby_delete_setup hub0 = Some (None, lobby_deleted) /\
  Rooms lobby_deleted !! "lobby" = None /\
  ClientRooms lobby_deleted !! 1%nat = Some 0%nat /\
  option_map c_CurrentRoom (client_heap lobby_deleted !! 1%nat) = Some (Some 0%nat) /\
  option_map (fun x => bool_decide (1%nat ∈ r_Clients x)) (room_heap lobby_deleted !! 0%nat)
    = Some true.
Proof. repeat split; vm_compute; reflexivity. Qed.

(** C9: fifty copies of U+00E9 make a name of 50 characters but 100 bytes,
    and CreateRoom refuses it with InvalidName. *)
Lemma C9_fifty_characters_refused :
  utf8_char_count name50 = 50%nat /\ String.length name50 = 100%nat /\
  eval (CreateRoom name50 false "" 10) hub0 = Some (None, Some InvalidName).
Proof. repeat split; vm_compute; reflexivity. Qed.

(** ** Witnesses *)

Lemma C2_private_password_kept_in_clear_witness :
  CreateRoom "vip" true "pw" 10 hub0 = Some ((Some 0%nat, None), vip_created) /\
  ((exists x, room_heap vip_created !! 0%nat = Some x /\ r_Password x = "pw" /\
              CompareHashAndPassword (r_Password x) "pw" = false) /\
   exists h2, JoinRoom 1 0 "pw" vip_created = Some (Some InvalidPassword, h2)).
Proof.
  assert (E : CreateRoom "vip" true "pw" 10 hub0 = Some ((Some 0%nat, None), vip_created))
    by (vm_compute; reflexivity).
  split; [exact E|].
  apply (C2_private_password_kept_in_clear hub0 vip_created "vip" "pw" 10 0 1 E).
  - lia.
  - vm_compute. lia.
Defined.

Lemma C4_no_republish_witness :
  BroadcastToRoom 0 join_note lobby_hub = Some (tt, lobby_noted) /\
  exists new, published lobby_noted = published lobby_hub ++ new /\
    (new <> [] -> MessageID join_note = "").
Proof.
  assert (E : BroadcastToRoom 0 join_note lobby_hub = Some (tt, lobby_noted))
    by (vm_compute; reflexivity).
  split; [exact E|].
  exact (proj1 (C4_no_republish lobby_hub lobby_noted 0 join_note tt) E).
Defined.

Lemma C5_no_loopback_witness :
  NATS lobby_hub = Some demo_nats /\ ServerID own_msg = GetServerID demo_nats /\
  deliver (RoomSubject "lobby") own_msg lobby_hub = Some (tt, lobby_hub).
Proof.
  split; [reflexivity|]. split; [reflexivity|].
  apply (C5_no_loopback lobby_hub demo_nats); reflexivity.
Defined.

Lemma C6_wrong_password_refused_witness :
  exists e h' x', JoinRoom 2 0 "bad" vip_loaded = Some (Some e, h') /\
    room_heap h' !! 0%nat = Some x' /\
    r_Clients x' = r_Clients (NewRoom "vip" true (demo_prefix +:+ "pw") 100) /\
    (e = InvalidPassword <-> true = true /\ Z.of_nat (size (∅ : gset nat)) < 100) /\
    (e = RoomInactive <-> true = false) /\
    (e = RoomFull <-> true = true /\ 100 <= Z.of_nat (size (∅ : gset nat))).
Proof.
  apply (C6_wrong_password_refused vip_loaded 2 0 "bad"
           (NewRoom "vip" true (demo_prefix +:+ "pw") 100)).
  - vm_compute. reflexivity.
  - reflexivity.
  - vm_compute. reflexivity.
  - apply (bool_decide_eq_false_1 (2%nat ∈ (∅ : gset nat))). vm_compute. reflexivity.
Defined.

Lemma C7_delete_room_effects_witness :
  DeleteRoom 1 "lobby" lobby_alice = Some (None, lobby_deleted) /\
  exists r x cl, Rooms lobby_alice !! "lobby" = Some r /\ room_heap lobby_alice !! r = Some x /\
    r_Creator x = Some 1%nat /\ client_heap lobby_alice !! 1%nat = Some cl /\
    Rooms lobby_deleted = delete "lobby" (Rooms lobby_alice) /\
    Broadcast_q lobby_deleted = Broadcast_q lobby_alice ++ [mkMessage ""
      ("[" +:+ clock lobby_alice +:+ "] Room 'lobby' has been deleted by " +:+ c_Name cl)
      MsgTypeDeleteRoom None None ""] /\
    ClientRooms lobby_deleted = ClientRooms lobby_alice /\
    client_heap lobby_deleted = client_heap lobby_alice /\
    room_heap lobby_deleted = room_heap lobby_alice /\ Clients lobby_deleted = Clients lobby_alice.
Proof.
  assert (E : DeleteRoom 1 "lobby" lobby_alice = Some (None, lobby_deleted))
    by (vm_compute; reflexivity).
  split; [exact E|].
  exact (C7_delete_room_effects lobby_alice lobby_deleted 1 "lobby" E).
Defined.

Lemma C8_register_registered_session_witness :
  1%nat ∈ Clients hub_reg1 /\ exec (run_register (Some 1%nat)) hub_reg1 = Some hub_reg2 /\
  Clients hub_reg2 = Clients hub_reg1 /\ UserCount hub_reg1 = 1 /\ UserCount hub_reg2 = 2.
Proof.
  assert (Hin : 1%nat ∈ Clients hub_reg1)
    by (apply (bool_decide_eq_true_1 (1%nat ∈ Clients hub_reg1)); vm_compute; reflexivity).
  assert (E : exec (run_register (Some 1%nat)) hub_reg1 = Some hub_reg2)
    by (vm_compute; reflexivity).
  destruct (C8_register_registered_session hub_reg1 hub_reg2 1 Hin E) as (HC & HU & _).
  split; [exact Hin|]. split; [exact E|]. split; [exact HC|]. split; [reflexivity|].
  rewrite HU. reflexivity.
Defined.

Lemma C10_failed_join_claims_creator_witness :
  JoinRoom 2 0 "bad" vip_loaded = Some (Some InvalidPassword, vip_bob_refused) /\
  Rooms vip_bob_refused !! "vip" = Some 0%nat /\
  ((InvalidPassword = RoomInactive \/ InvalidPassword = RoomFull \/
    InvalidPassword = InvalidPassword) /\
   exists x', room_heap vip_bob_refused !! 0%nat = Some x' /\ r_Creator x' = Some 2%nat /\
     (2%nat ∉ r_Clients x') /\
     forall name, Rooms vip_bob_refused !! name = Some 0%nat ->
       (forall c', c' <> 2%nat -> DeleteRoom c' name vip_bob_refused
                                  = Some (Some NotCreator, vip_bob_refused)) /\
       (is_Some (client_heap vip_bob_refused !! 2%nat) ->
        exists h'', DeleteRoom 2 name vip_bob_refused = Some (None, h''))).
Proof.
  assert (E : JoinRoom 2 0 "bad" vip_loaded = Some (Some InvalidPassword, vip_bob_refused))
    by (vm_compute; reflexivity).
  split; [exact E|]. split; [vm_compute; reflexivity|].
  apply (C10_failed_join_claims_creator vip_loaded vip_bob_refused 2 0 "bad" InvalidPassword
           (NewRoom "vip" true (demo_prefix +:+ "pw") 100)).
  - vm_compute. reflexivity.
  - reflexivity.
  - apply (bool_decide_eq_false_1 (2%nat ∈ (∅ : gset nat))). vm_compute. reflexivity.
  - exact E.
Defined.

(** * Further properties of the hub *)

(** ** Capacity of rooms *)

#[export] Instance capacity_kept_preorder : PreOrder capacity_kept.
Proof. split; [intros h H; exact H | intros h1 h2 h3 E1 E2 H; auto]. Qed.

Lemma capacity_kept_rooms h h' : room_heap h' = room_heap h -> capacity_kept h h'.
Proof. intros E H r x Hx. rewrite E in Hx. exact (H r x Hx). Qed.

Lemma frame_call_room_capacity {A} r (f : Room -> A * Room) :
  (forall x, room_capacity_ok x -> room_capacity_ok (snd (f x))) ->
  frame capacity_kept (call_room r f).
Proof.
  intros Hf h a h' E H. unfold call_room in E.
  destruct (room_heap h !! r) as [y|] eqn:Hy; [|discriminate]. injection E as _ <-.
  intros r' x Hx. cbn [room_heap upd_heaps] in Hx.
  destruct (decide (r' = r)) as [->|Hne].
  - rewrite lookup_insert_eq in Hx. injection Hx as <-. apply Hf, (H r y Hy).
  - rewrite lookup_insert_ne in Hx by congruence. exact (H r' x Hx).
Qed.

Lemma size_union_singleton_le (c : nat) (X : gset nat) : (size ({[c]} ∪ X) <= S (size X))%nat.
Proof.
  destruct (decide (c ∈ X)) as [Hc|Hc].
  - assert (E : {[c]} ∪ X = X) by set_solver. rewrite E. lia.
  - rewrite size_union by set_solver. rewrite size_singleton. lia.
Qed.

Lemma capacity_AddClient x c : room_capacity_ok x -> room_capacity_ok (snd (AddClient x c)).
Proof.
  unfold room_capacity_ok, AddClient. intros H.
  destruct (Z.of_nat (size (r_Clients x)) >=? r_MaxClients x) eqn:E; [exact H|].
  simpl. rewrite Z.geb_leb in E. apply Z.leb_gt in E. pose proof (size_union_singleton_le c (r_Clients x)). lia.
Qed.

Lemma capacity_RemoveClient x c : room_capacity_ok x -> room_capacity_ok (RemoveClient x c).
Proof.
  unfold room_capacity_ok, RemoveClient. simpl. intros H.
  assert (size (r_Clients x ∖ {[c]}) <= size (r_Clients x))%nat
    by (apply subseteq_size; set_solver). lia.
Qed.

Lemma capacity_SetCreator x c : room_capacity_ok x -> room_capacity_ok (SetCreator x c).
Proof. unfold room_capacity_ok. simpl. auto. Qed.

Lemma capacity_claimed x c : room_capacity_ok x -> room_capacity_ok (claimed x c).
Proof.
  unfold room_capacity_ok. destruct (claimed_fields x c) as (_ & Hs & Hm & _). rewrite Hs, Hm. auto.
Qed.

Lemma capacity_kept_upd_core f g k u h : capacity_kept h (upd_core f g k u h).
Proof. apply capacity_kept_rooms. reflexivity. Qed.
Lemma capacity_kept_upd_effects rp s p b u w cl h : capacity_kept h (upd_effects rp s p b u w cl h).
Proof. apply capacity_kept_rooms. reflexivity. Qed.
Lemma capacity_kept_upd_clients g n h : capacity_kept h (upd_heaps id g n h).
Proof. apply capacity_kept_rooms. reflexivity. Qed.
Lemma frame_call_client_capacity {A} c (f : Client -> A * Client) :
  frame capacity_kept (call_client c f).
Proof.
  intros h a h' E. unfold call_client in E.
  destruct (client_heap h !! c); [|discriminate]. injection E as _ <-.
  apply capacity_kept_upd_clients.
Qed.

#[export] Hint Resolve capacity_kept_upd_core capacity_kept_upd_effects capacity_kept_upd_clients
  frame_call_client_capacity : frame.
#[export] Hint Extern 2 (frame capacity_kept (call_room _ _)) =>
  refine (frame_call_room_capacity _ _ _); intros ?x ?Hx; cbv beta;
  first [ rewrite claimed_eq; apply capacity_claimed, Hx
        | apply capacity_AddClient, Hx
        | apply capacity_RemoveClient, Hx
        | apply capacity_SetCreator, Hx ] : frame.

Lemma Publish_capacity s m : frame capacity_kept (Publish s m).
Proof. unfold Publish. frame_auto. Qed.
Lemma Subscribe_capacity s hd : frame capacity_kept (Subscribe s hd).
Proof. unfold Subscribe. frame_auto. Qed.
Lemma conn_write_capacity c p : frame capacity_kept (conn_write c p).
Proof. unfold conn_write. frame_auto. Qed.
Lemma send_Unregister_capacity c : frame capacity_kept (send_Unregister c).
Proof. unfold send_Unregister. frame_auto. Qed.
Lemma send_Broadcast_capacity m : frame capacity_kept (send_Broadcast m).
Proof. unfold send_Broadcast. frame_auto. Qed.
#[export] Hint Resolve Publish_capacity Subscribe_capacity conn_write_capacity
  send_Unregister_capacity send_Broadcast_capacity : frame.
Lemma broadcast_loop_capacity n m cs rm : frame capacity_kept (broadcast_loop n m cs rm).
Proof. revert rm. induction cs as [|c cs IH]; intros rm; simpl; frame_auto. Qed.
#[export] Hint Resolve broadcast_loop_capacity : frame.
Lemma BroadcastToRoom_capacity r m : frame capacity_kept (BroadcastToRoom r m).
Proof. unfold BroadcastToRoom. frame_auto. Qed.
#[export] Hint Resolve BroadcastToRoom_capacity : frame.
Lemma leaveRoomInternal_capacity c : frame capacity_kept (leaveRoomInternal c).
Proof. unfold leaveRoomInternal. frame_auto. Qed.
#[export] Hint Resolve leaveRoomInternal_capacity : frame.
Lemma JoinRoom_capacity `{Bcrypt} c r pw : frame capacity_kept (JoinRoom c r pw).
Proof. unfold JoinRoom. frame_auto. Qed.
Lemma DeleteRoom_capacity c n : frame capacity_kept (DeleteRoom c n).
Proof. unfold DeleteRoom. frame_auto. Qed.
Lemma global_loop_capacity m cs rm : frame capacity_kept (global_loop m cs rm).
Proof. revert rm. induction cs as [|c cs IH]; intros rm; simpl; frame_auto. Qed.
Lemma remove_failed_capacity c : frame capacity_kept (remove_failed c).
Proof. unfold remove_failed. frame_auto. Qed.
#[export] Hint Resolve global_loop_capacity remove_failed_capacity : frame.
Lemma run_broadcast_capacity m : frame capacity_kept (run_broadcast m).
Proof. unfold run_broadcast. frame_auto. Qed.
Lemma run_register_capacity oc : frame capacity_kept (run_register oc).
Proof. unfold run_register, store_client. frame_auto. Qed.
Lemma run_unregister_capacity oc : frame capacity_kept (run_unregister oc).
Proof. unfold run_unregister. frame_auto. Qed.

Lemma capacity_kept_new_room name p pw maxc h :
  0 <= maxc -> capacity_kept h (upd_heaps (<[next_ref h := NewRoom name p pw maxc]>) id S h).
Proof.
  intros Hm H r x Hx. cbn [room_heap upd_heaps] in Hx.
  destruct (decide (r = next_ref h)) as [->|Hne].
  - rewrite lookup_insert_eq in Hx. injection Hx as <-. unfold room_capacity_ok. simpl.
    change (Z.of_nat (size (∅ : gset nat)) <= maxc). rewrite size_empty. simpl. lia.
  - rewrite lookup_insert_ne in Hx by congruence. exact (H r x Hx).
Qed.

Lemma CreateRoom_capacity `{Bcrypt} name p pw maxc :
  0 <= maxc -> frame capacity_kept (CreateRoom name p pw maxc).
Proof.
  intros Hm h a h' E Hc.
  assert (Hn : capacity_ok (upd_heaps (<[next_ref h := NewRoom name p pw maxc]>) id S h))
    by (apply capacity_kept_new_room; assumption).
  unfold CreateRoom, Publish, bind, get, modify, ret, panic in E.
  repeat (case_match; simplify_eq/=); first [exact Hc | exact Hn].
Qed.

Lemma load_rows_capacity rows : frame capacity_kept (load_rows rows).
Proof.
  induction rows as [|[name [p hsh]] rows IH]; intros h a h' E Hc; simpl in E.
  - injection E as _ <-. exact Hc.
  - unfold bind at 1, get in E. unfold bind at 1, modify in E. unfold bind at 1, modify in E.
    apply (IH _ _ _ E). intros r x Hx. cbn [room_heap upd_heaps upd_core] in Hx.
    refine (capacity_kept_new_room name p hsh 100 h _ Hc r x Hx). lia.
Qed.

Lemma LoadRoomsFromDB_capacity : frame capacity_kept LoadRoomsFromDB.
Proof.
  intros h a h' E Hc. unfold LoadRoomsFromDB, bind at 1, get in E.
  destruct (Repo h) as [db|]; [exact (load_rows_capacity _ _ _ _ E Hc)|].
  injection E as _ <-. exact Hc.
Qed.

(** No hub operation puts more members in a room than its MaxClients allows.
    If every stored room is within its bound, it stays within it after
    JoinRoom, LeaveRoom, DeleteRoom, CreateRoom with a non-negative bound,
    LoadRoomsFromDB, and the Register, Unregister and Broadcast cases of Run. *)
Theorem hub_capacity_invariant `{Bcrypt} (h h' : Hub) :
  capacity_ok h ->
  (forall c r pw e, JoinRoom c r pw h = Some (e, h') -> capacity_ok h') /\
  (forall c u, LeaveRoom c h = Some (u, h') -> capacity_ok h') /\
  (forall c name e, DeleteRoom c name h = Some (e, h') -> capacity_ok h') /\
  (forall name p pw maxc res, 0 <= maxc ->
     CreateRoom name p pw maxc h = Some (res, h') -> capacity_ok h') /\
  (forall u, LoadRoomsFromDB h = Some (u, h') -> capacity_ok h') /\
  (forall oc u, run_register oc h = Some (u, h') -> capacity_ok h') /\
  (forall oc u, run_unregister oc h = Some (u, h') -> capacity_ok h') /\
  (forall m u, run_broadcast m h = Some (u, h') -> capacity_ok h').
Proof.
  intros Hc. repeat split.
  - intros c r pw e E. exact (JoinRoom_capacity c r pw _ _ _ E Hc).
  - intros c u E. exact (leaveRoomInternal_capacity c _ _ _ E Hc).
  - intros c name e E. exact (DeleteRoom_capacity c name _ _ _ E Hc).
  - intros name p pw maxc res Hm E. exact (CreateRoom_capacity name p pw maxc Hm _ _ _ E Hc).
  - intros u E. exact (LoadRoomsFromDB_capacity _ _ _ E Hc).
  - intros oc u E. exact (run_register_capacity oc _ _ _ E Hc).
  - intros oc u E. exact (run_unregister_capacity oc _ _ _ E Hc).
  - intros m u E. exact (run_broadcast_capacity m _ _ _ E Hc).
Qed.

(** ** Membership, rooms and handlers *)

Lemma Publish_core s m : frame (same core_of) (Publish s m).
Proof. unfold Publish. frame_auto. Qed.
Lemma Subscribe_core s hd : frame (same core_of) (Subscribe s hd).
Proof. unfold Subscribe. frame_auto. Qed.
Lemma conn_write_core c p : frame (same core_of) (conn_write c p).
Proof. unfold conn_write. frame_auto. Qed.
Lemma send_Unregister_core c : frame (same core_of) (send_Unregister c).
Proof. unfold send_Unregister. frame_auto. Qed.
Lemma send_Broadcast_core m : frame (same core_of) (send_Broadcast m).
Proof. unfold send_Broadcast. frame_auto. Qed.
#[export] Hint Resolve Publish_core Subscribe_core conn_write_core send_Unregister_core
  send_Broadcast_core : frame.
Lemma broadcast_loop_core n m cs rm : frame (same core_of) (broadcast_loop n m cs rm).
Proof. revert rm. induction cs as [|c cs IH]; intros rm; simpl; frame_auto. Qed.
#[export] Hint Resolve broadcast_loop_core : frame.
Lemma BroadcastToRoom_core r m : frame (same core_of) (BroadcastToRoom r m).
Proof. unfold BroadcastToRoom. frame_auto. Qed.
#[export] Hint Resolve BroadcastToRoom_core : frame.

Lemma core_of_eq h h' :
  same core_of h h' ->
  Clients h' = Clients h /\ Rooms h' = Rooms h /\ ClientRooms h' = ClientRooms h /\
  UserCount h' = UserCount h /\ room_heap h' = room_heap h /\ client_heap h' = client_heap h /\
  next_ref h' = next_ref h /\ Repo h' = Repo h.
Proof. unfold same, core_of. intros E. simplify_eq. auto 10. Qed.

(** The effect of LeaveRoom on a session in a room. *)
Lemma LeaveRoom_member (h h' : Hub) (c r : nat) (cl : Client) (u : unit) :
  client_heap h !! c = Some cl -> c_CurrentRoom cl = Some r ->
  LeaveRoom c h = Some (u, h') ->
  exists x, room_heap h !! r = Some x /\ c_Conn cl <> NoConn /\
    room_heap h' = <[r := RemoveClient x c]> (room_heap h) /\
    client_heap h' = <[c := set_client_CurrentRoom cl None]> (client_heap h) /\
    ClientRooms h' = delete c (ClientRooms h) /\
    Rooms h' = Rooms h /\ Clients h' = Clients h /\ UserCount h' = UserCount h.
Proof.
  intros Hcl Hr E. unfold LeaveRoom, leaveRoomInternal in E.
  split_bind E as cl0 h1 E1. unfold load_client in E1. rewrite Hcl in E1.
  injection E1 as <- <-. rewrite Hr in E.
  split_bind E as x h1 E1. unfold load_room in E1.
  destruct (room_heap h !! r) as [x'|] eqn:Hx; [|discriminate]. injection E1 as <- <-.
  exists x'. split; [reflexivity|].
  split_bind E as t1 h1 E1. unfold call_room in E1. rewrite Hx in E1. injection E1 as _ <-.
  split_bind E as t2 h1 E1. unfold call_client in E1. cbn [client_heap upd_heaps id] in E1.
  rewrite Hcl in E1. injection E1 as _ <-.
  split_bind E as t3 h1 E1. injection E1 as _ <-.
  split_bind E as t4 h1 E1.
  assert (Hconn : c_Conn cl <> NoConn).
  { unfold conn_write, bind, load_client in E1. cbn [client_heap upd_heaps upd_core id] in E1.
    rewrite lookup_insert_eq in E1. simpl in E1. destruct (c_Conn cl); [discriminate|congruence|congruence]. }
  split; [exact Hconn|].
  assert (K1 : same core_of _ h1) by frame_of (same core_of) E1.
  split_bind E as hh h2 E2. injection E2 as <- <-.
  assert (K2 : same core_of h1 h') by frame_of (same core_of) E.
  apply core_of_eq in K1, K2. simpl in K1.
  destruct K1 as (C1 & R1 & I1 & U1 & RH1 & CH1 & _). destruct K2 as (C2 & R2 & I2 & U2 & RH2 & CH2 & _).
  repeat split; congruence.
Qed.

Lemma LeaveRoom_not_in_room (h : Hub) (c : nat) (cl : Client) :
  client_heap h !! c = Some cl -> c_CurrentRoom cl = None -> LeaveRoom c h = Some (tt, h).
Proof.
  intros Hcl Hr. unfold LeaveRoom, leaveRoomInternal, bind at 1, load_client.
  rewrite Hcl, Hr. reflexivity.
Qed.

Lemma LeaveRoom_nil_conn (h : Hub) (c r : nat) (cl : Client) (x : Room) :
  client_heap h !! c = Some cl -> c_CurrentRoom cl = Some r -> room_heap h !! r = Some x ->
  c_Conn cl = NoConn -> LeaveRoom c h = None.
Proof.
  intros Hcl Hr Hx Hn. unfold LeaveRoom, leaveRoomInternal, bind, load_client, load_room.
  rewrite Hcl, Hr, Hx. unfold call_room. rewrite Hx. cbn [fst snd].
  unfold call_client. cbn [client_heap upd_heaps id]. rewrite Hcl. cbn [fst snd].
  unfold modify, conn_write, bind, load_client. cbn [client_heap upd_heaps upd_core id].
  rewrite lookup_insert_eq. simpl. rewrite Hn. reflexivity.
Qed.

(** LeaveRoom keeps the membership invariant. It also keeps the
    agreement of each session's CurrentRoom with the client-to-room index. *)
Theorem LeaveRoom_keeps_membership (h h' : Hub) (c : nat) (u : unit) :
  membership_inv h -> current_room_agrees h -> LeaveRoom c h = Some (u, h') ->
  membership_inv h' /\ current_room_agrees h'.
Proof.
  intros [Hm1 Hm2] Ha E.
  assert (Hcl : exists cl, client_heap h !! c = Some cl).
  { unfold LeaveRoom, leaveRoomInternal, bind at 1, load_client in E.
    destruct (client_heap h !! c); [eauto | discriminate]. }
  destruct Hcl as [cl Hcl].
  destruct (c_CurrentRoom cl) as [r|] eqn:Hr.
  2:{ rewrite (LeaveRoom_not_in_room h c cl Hcl Hr) in E. injection E as _ <-.
      split; [split; assumption | exact Ha]. }
  destruct (LeaveRoom_member h h' c r cl u Hcl Hr E)
    as (x & Hx & _ & RH & CH & CR & _ & _ & _).
  assert (Hcr : ClientRooms h !! c = Some r) by (rewrite <- (Ha c cl Hcl); exact Hr).
  split; [split|].
  - intros c' r' x' Hx'. rewrite RH in Hx'. rewrite CR.
    destruct (decide (r' = r)) as [->|Hne].
    + rewrite lookup_insert_eq in Hx'. injection Hx' as <-. unfold RemoveClient. simpl.
      rewrite elem_of_difference, elem_of_singleton, (Hm1 c' r x Hx).
      destruct (decide (c' = c)) as [->|Hc].
      * rewrite lookup_delete_eq. split; [intros [_ []]; reflexivity | discriminate].
      * rewrite lookup_delete_ne by congruence. tauto.
    + rewrite lookup_insert_ne in Hx' by congruence. rewrite (Hm1 c' r' x' Hx').
      destruct (decide (c' = c)) as [->|Hc].
      * rewrite lookup_delete_eq, Hcr. split; [congruence | discriminate].
      * rewrite lookup_delete_ne by congruence. reflexivity.
  - intros c' r' Hc'. rewrite CR in Hc'. rewrite RH.
    destruct (decide (c' = c)) as [->|Hc]; [rewrite lookup_delete_eq in Hc'; discriminate|].
    rewrite lookup_delete_ne in Hc' by congruence.
    destruct (decide (r' = r)) as [->|Hne]; [rewrite lookup_insert_eq; eauto|].
    rewrite lookup_insert_ne by congruence. exact (Hm2 c' r' Hc').
  - intros c' cl' Hc'. rewrite CH in Hc'. rewrite CR.
    destruct (decide (c' = c)) as [->|Hc].
    + rewrite lookup_insert_eq in Hc'. injection Hc' as <-. rewrite lookup_delete_eq. reflexivity.
    + rewrite lookup_insert_ne in Hc' by congruence. rewrite lookup_delete_ne by congruence.
      exact (Ha c' cl' Hc').
Qed.

Lemma AddClient_clients (x : Room) (c : nat) :
  r_Clients (snd (AddClient x c)) =
  if decide (Z.of_nat (size (r_Clients x)) < r_MaxClients x) then {[c]} ∪ r_Clients x
  else r_Clients x.
Proof.
  destruct (decide _) as [Hlt|Hge].
  - rewrite AddClient_room by exact Hlt. reflexivity.
  - rewrite AddClient_full by lia. reflexivity.
Qed.

Lemma AddClient_true (x x' : Room) (c : nat) :
  AddClient x c = (true, x') ->
  Z.of_nat (size (r_Clients x)) < r_MaxClients x /\ x' = set_room_Clients x ({[c]} ∪ r_Clients x).
Proof.
  intros E. destruct (decide (Z.of_nat (size (r_Clients x)) < r_MaxClients x)) as [Hlt|Hge].
  - rewrite AddClient_room in E by exact Hlt. injection E as <-. split; [exact Hlt | reflexivity].
  - rewrite AddClient_full in E by lia. discriminate.
Qed.

Lemma set_client_CurrentRoom_twice (cl : Client) (a b : option nat) :
  set_client_CurrentRoom (set_client_CurrentRoom cl a) b = set_client_CurrentRoom cl b.
Proof. reflexivity. Qed.

(** What a successful JoinRoom does to the heaps and the index. *)
Lemma JoinRoom_success_effect `{Bcrypt} (h h' : Hub) (c r : nat) (pw : string) :
  membership_inv h -> current_room_agrees h ->
  JoinRoom c r pw h = Some (None, h') ->
  exists x y cl, room_heap h !! r = Some x /\ room_heap h' !! r = Some y /\
    c ∈ r_Clients y /\ (forall c', c' <> c -> c' ∈ r_Clients y <-> c' ∈ r_Clients x) /\
    (forall r', r' <> r -> forall y', room_heap h' !! r' = Some y' ->
       exists y0, room_heap h !! r' = Some y0 /\ (c ∉ r_Clients y') /\
         forall c', c' <> c -> c' ∈ r_Clients y' <-> c' ∈ r_Clients y0) /\
    (forall r', is_Some (room_heap h !! r') -> is_Some (room_heap h' !! r')) /\
    ClientRooms h' = <[c := r]> (ClientRooms h) /\
    client_heap h !! c = Some cl /\
    client_heap h' = <[c := set_client_CurrentRoom cl (Some r)]> (client_heap h).
Proof.
  intros [Hm1 Hm2] Ha E. unfold JoinRoom in E.
  split_bind E as t1 h1 E1. unfold call_room in E1.
  destruct (room_heap h !! r) as [x|] eqn:Hx; [|discriminate]. injection E1 as _ <-.
  cbv beta in E. rewrite claimed_eq in E.
  destruct (claimed_fields x c) as (HA & HS & HM & HP & HW & HN).
  split_bind E as room h2 E2. unfold load_room in E2. cbn [room_heap upd_heaps] in E2.
  rewrite lookup_insert_eq in E2. injection E2 as <- <-.
  destruct (negb (r_Active (claimed x c))); [discriminate|].
  split_bind E as added h3 E3. unfold call_room in E3. cbn [room_heap upd_heaps] in E3.
  rewrite lookup_insert_eq in E3. injection E3 as <- <-.
  destruct (AddClient (claimed x c) c) as [b x2] eqn:HA1. cbn [fst snd] in E.
  destruct b; [|discriminate]. apply AddClient_true in HA1 as [Hlt1 ->].
  rewrite HS, HM in Hlt1.
  rewrite upd_heaps_insert_insert in E.
  split_bind E as room h4 E4. unfold load_room in E4. cbn [room_heap upd_heaps] in E4.
  rewrite lookup_insert_eq in E4. injection E4 as <- <-.
  match type of E with
  | (if ?b then _ else _) _ = _ => destruct b
  end.
  { split_bind E as t h4 E4. injection E as Ef. discriminate. }
  set (x2 := set_room_Clients (claimed x c) ({[c]} ∪ r_Clients (claimed x c))) in E.
  assert (Hx2c : r_Clients x2 = {[c]} ∪ r_Clients x) by (unfold x2; simpl; rewrite HS; reflexivity).
  assert (Hx2m : r_MaxClients x2 = r_MaxClients x) by (unfold x2; simpl; exact HM).
  set (h3 := upd_heaps (<[r:=x2]>) id id h) in E.
  split_bind E as t5 h5 E5.
  assert (Hcl : exists cl, client_heap h !! c = Some cl).
  { unfold leaveRoomInternal, bind at 1, load_client in E5. cbn [client_heap h3 upd_heaps id] in E5.
    destruct (client_heap h !! c); [eauto | discriminate]. }
  destruct Hcl as [cl Hcl]. exists x.
  assert (Hcl3 : client_heap h3 !! c = Some cl) by exact Hcl.
  assert (Hout : forall r' y0, room_heap h !! r' = Some y0 -> ClientRooms h !! c <> Some r' ->
                   c ∉ r_Clients y0).
  { intros r' y0 Hy0 Hne Hin. apply Hne, (Hm1 c r' y0 Hy0), Hin. }
  (* the state after leaveRoomInternal *)
  assert (L : exists x5,
            room_heap h5 !! r = Some x5 /\
            r_Clients x5 ∖ {[c]} = r_Clients x ∖ {[c]} /\
            (c ∈ r_Clients x5 \/ Z.of_nat (size (r_Clients x5)) < r_MaxClients x5) /\
            (forall r', r' <> r -> forall y', room_heap h5 !! r' = Some y' ->
               exists y0, room_heap h !! r' = Some y0 /\ (c ∉ r_Clients y') /\
                 forall c', c' <> c -> c' ∈ r_Clients y' <-> c' ∈ r_Clients y0) /\
            (forall r', is_Some (room_heap h !! r') -> is_Some (room_heap h5 !! r')) /\
            (forall c', c' <> c -> ClientRooms h5 !! c' = ClientRooms h !! c') /\
            (exists cl5, client_heap h5 = <[c := cl5]> (client_heap h) /\
               set_client_CurrentRoom cl5 (Some r) = set_client_CurrentRoom cl (Some r))).
  { destruct (c_CurrentRoom cl) as [r0|] eqn:Hr0.
    - destruct (LeaveRoom_member h3 h5 c r0 cl t5 Hcl3 Hr0 E5)
        as (x0 & Hx0 & _ & RH & CH & CR & _ & _ & _).
      assert (Hcr : ClientRooms h !! c = Some r0) by (rewrite <- (Ha c cl Hcl); exact Hr0).
      rewrite RH. cbn [room_heap h3 upd_heaps ClientRooms client_heap id] in RH, CH, CR, Hx0 |- *.
      destruct (decide (r0 = r)) as [->|Hne].
      + rewrite lookup_insert_eq in Hx0. injection Hx0 as <-.
        assert (Hcx : c ∈ r_Clients x) by (apply (Hm1 c r x Hx), Hcr).
        exists (RemoveClient x2 c). rewrite insert_insert_eq, lookup_insert_eq.
        split; [reflexivity|]. unfold RemoveClient. cbn [r_Clients r_MaxClients set_room_Clients].
        rewrite Hx2c, Hx2m.
        split; [set_solver|].
        split.
        { right.
          assert (Ee : ({[c]} ∪ r_Clients x) ∖ {[c]} = r_Clients x ∖ {[c]}) by set_solver.
          rewrite Ee.
          assert (Hsz : (size (r_Clients x ∖ {[c]}) < size (r_Clients x))%nat)
            by (apply subset_size; set_solver).
          lia. }
        split.
        { intros r' Hr' y' Hy'. rewrite lookup_insert_ne in Hy' by congruence.
          exists y'. split; [exact Hy'|]. split; [|tauto].
          apply (Hout r' y' Hy'). congruence. }
        split.
        { intros r' [y0 Hy0]. destruct (decide (r' = r)) as [->|Hne];
            [rewrite lookup_insert_eq; eauto | rewrite lookup_insert_ne by congruence; eauto]. }
        split.
        { intros c' Hc'. rewrite CR, lookup_delete_ne by congruence. reflexivity. }
        exists (set_client_CurrentRoom cl None). split; [exact CH | reflexivity].
      + rewrite lookup_insert_ne in Hx0 by congruence.
        exists x2. rewrite lookup_insert_ne by congruence. rewrite lookup_insert_eq.
        split; [reflexivity|]. rewrite Hx2c.
        split; [set_solver|]. split; [left; set_solver|].
        split.
        { intros r' Hr' y' Hy'. destruct (decide (r' = r0)) as [->|Hne0].
          - rewrite lookup_insert_eq in Hy'. injection Hy' as <-.
            exists x0. split; [exact Hx0|]. unfold RemoveClient. simpl. split; [set_solver|].
            intros c' Hc'. set_solver.
          - rewrite lookup_insert_ne in Hy' by congruence.
            rewrite lookup_insert_ne in Hy' by congruence.
            exists y'. split; [exact Hy'|]. split; [|tauto].
            apply (Hout r' y' Hy'). congruence. }
        split.
        { intros r' [y0 Hy0]. destruct (decide (r' = r0)) as [->|Hne0];
            [rewrite lookup_insert_eq; eauto|]. rewrite lookup_insert_ne by congruence.
          destruct (decide (r' = r)) as [->|Hne1];
            [rewrite lookup_insert_eq; eauto | rewrite lookup_insert_ne by congruence; eauto]. }
        split.
        { intros c' Hc'. rewrite CR, lookup_delete_ne by congruence. reflexivity. }
        exists (set_client_CurrentRoom cl None). split; [exact CH | reflexivity].
    - assert (E5' := LeaveRoom_not_in_room h3 c cl Hcl3 Hr0). unfold LeaveRoom in E5'.
      rewrite E5' in E5. injection E5 as _ <-.
      assert (Hcr : ClientRooms h !! c = None) by (rewrite <- (Ha c cl Hcl); exact Hr0).
      exists x2. cbn [room_heap h3 upd_heaps ClientRooms client_heap id].
      rewrite lookup_insert_eq. split; [reflexivity|]. rewrite Hx2c.
      split; [set_solver|]. split; [left; set_solver|].
      split.
      { intros r' Hr' y' Hy'. rewrite lookup_insert_ne in Hy' by congruence.
        exists y'. split; [exact Hy'|]. split; [|tauto].
        apply (Hout r' y' Hy'). congruence. }
      split.
      { intros r' [y0 Hy0]. destruct (decide (r' = r)) as [->|Hne1];
          [rewrite lookup_insert_eq; eauto | rewrite lookup_insert_ne by congruence; eauto]. }
      split; [reflexivity|].
      exists cl. split; [rewrite insert_id by exact Hcl; reflexivity | reflexivity]. }
  destruct L as (x5 & Hx5 & Hd5 & Hc5 & Ho5 & Hs5 & Hr5 & cl5 & Hch5 & Hcl5).
  split_bind E as t6 h6 E6. unfold call_room in E6. rewrite Hx5 in E6. injection E6 as _ <-.
  split_bind E as t7 h7 E7. unfold call_client in E7. cbn [client_heap upd_heaps id] in E7.
  rewrite Hch5, lookup_insert_eq in E7. injection E7 as _ <-.
  split_bind E as room8 h8 E8. unfold load_room in E8. cbn [room_heap upd_heaps id] in E8.
  rewrite lookup_insert_eq in E8. injection E8 as <- <-.
  split_bind E as t9 h9 E9. injection E9 as _ <-.
  assert (K : same core_of _ h') by frame_of (same core_of) E.
  apply core_of_eq in K. destruct K as (_ & _ & KI & _ & KR & KC & _).
  cbn [room_heap client_heap ClientRooms upd_heaps upd_core id] in KI, KR, KC.
  exists (snd (AddClient x5 c)), cl.
  assert (Hy : forall c', c' ∈ r_Clients (snd (AddClient x5 c)) <-> c' = c \/ c' ∈ r_Clients x5).
  { intros c'. rewrite AddClient_clients. destruct (decide _) as [Hlt|Hge]; [set_solver|].
    destruct Hc5 as [Hin|Hlt]; [|lia]. set_solver. }
  split; [first [exact Hx | reflexivity]|]. split; [rewrite KR, lookup_insert_eq; reflexivity|].
  split; [apply Hy; left; reflexivity|].
  split.
  { intros c' Hc'. rewrite Hy.
    assert (c' ∈ r_Clients x5 ∖ {[c]} <-> c' ∈ r_Clients x ∖ {[c]}) as Hd by (rewrite Hd5; tauto).
    set_solver. }
  split.
  { intros r' Hr' y' Hy'. rewrite KR, lookup_insert_ne in Hy' by congruence. exact (Ho5 r' Hr' y' Hy'). }
  split.
  { intros r' Hr'. rewrite KR. destruct (decide (r' = r)) as [->|Hne];
      [rewrite lookup_insert_eq; eauto | rewrite lookup_insert_ne by congruence; apply Hs5, Hr']. }
  split.
  { rewrite KI. apply map_eq. intros i. destruct (decide (i = c)) as [->|Hne];
      [rewrite !lookup_insert_eq; reflexivity|rewrite !lookup_insert_ne by congruence; apply Hr5, Hne]. }
  split; [exact Hcl|].
  rewrite KC, Hch5, insert_insert_eq, Hcl5. reflexivity.
Qed.

(** A successful JoinRoom keeps the membership invariant and the
    agreement of CurrentRoom with the index. Afterwards the session is
    indexed under the room it joined and is in that room's member set. *)
Theorem JoinRoom_success_keeps_membership `{Bcrypt} (h h' : Hub) (c r : nat) (pw : string) :
  membership_inv h -> current_room_agrees h -> JoinRoom c r pw h = Some (None, h') ->
  membership_inv h' /\ current_room_agrees h' /\ ClientRooms h' !! c = Some r /\
  exists y, room_heap h' !! r = Some y /\ c ∈ r_Clients y.
Proof.
  intros Hinv Ha E. pose proof Hinv as [Hm1 Hm2].
  destruct (JoinRoom_success_effect h h' c r pw Hinv Ha E)
    as (x & y & cl & Hx & Hy & Hcy & Hoy & Hother & Hsome & HI & Hcl & HC).
  split; [split|].
  - intros c' r' y' Hy'. rewrite HI. destruct (decide (r' = r)) as [->|Hne].
    + rewrite Hy in Hy'. injection Hy' as <-. destruct (decide (c' = c)) as [->|Hc].
      * rewrite lookup_insert_eq. tauto.
      * rewrite lookup_insert_ne by congruence. rewrite (Hoy c' Hc). apply (Hm1 c' r x Hx).
    + destruct (Hother r' Hne y' Hy') as (y0 & Hy0 & Hc0 & Heq).
      destruct (decide (c' = c)) as [->|Hc].
      * rewrite lookup_insert_eq. split; [intros Hin; contradiction | congruence].
      * rewrite lookup_insert_ne by congruence. rewrite (Heq c' Hc). apply (Hm1 c' r' y0 Hy0).
  - intros c' r' Hc'. rewrite HI in Hc'. destruct (decide (c' = c)) as [->|Hc].
    + rewrite lookup_insert_eq in Hc'. injection Hc' as <-. eauto.
    + rewrite lookup_insert_ne in Hc' by congruence. apply Hsome, (Hm2 c' r' Hc').
  - split.
    + intros c' cl' Hc'. rewrite HC in Hc'. rewrite HI. destruct (decide (c' = c)) as [->|Hc].
      * rewrite lookup_insert_eq in Hc'. injection Hc' as <-. rewrite lookup_insert_eq. reflexivity.
      * rewrite lookup_insert_ne in Hc' by congruence. rewrite lookup_insert_ne by congruence.
        apply (Ha c' cl' Hc').
    + split; [rewrite HI; apply lookup_insert_eq|]. eauto.
Qed.

Lemma CreateRoom_name_ok `{Bcrypt} (name : string) :
  name <> "" -> (String.length name <= 50)%nat ->
  str_eqb name "" || (50 <? String.length name)%nat = false.
Proof.
  intros Hn Hl. apply orb_false_iff. split.
  - apply bool_decide_eq_false_2, Hn.
  - apply Nat.ltb_ge, Hl.
Qed.


(** The outcome of CreateRoom on a fresh, valid name. *)
Lemma CreateRoom_fresh `{Bcrypt} (name : string) (private : bool) (password : string)
    (maxc : Z) (h : Hub) (res : option nat * error) (h' : Hub) :
  CreateRoom name private password maxc h = Some (res, h') ->
  fst res <> None \/ (exists err, snd res = Some (HashFailed err)) ->
  name <> "" /\ (String.length name <= 50)%nat /\ Rooms h !! name = None /\
  (forall db, Repo h = Some db -> db !! name = None) /\
  Rooms h' = <[name := next_ref h]> (Rooms h) /\
  room_heap h' = <[next_ref h := NewRoom name private password maxc]> (room_heap h) /\
  client_heap h' = client_heap h /\ ClientRooms h' = ClientRooms h /\
  RepoInsertFails h' = RepoInsertFails h /\
  (forall err, snd res = Some (HashFailed err) ->
     fst res = None /\ Repo h' = Repo h /\ published h' = published h /\
     private = true /\ password <> "" /\
     exists db, Repo h = Some db /\ GenerateFromPassword password = GenError err) /\
  (snd res = None ->
     fst res = Some (next_ref h) /\
     (Repo h = None -> Repo h' = None) /\
     forall db, Repo h = Some db ->
       (RepoInsertFails h || has_nul name = true -> Repo h' = Repo h) /\
       (RepoInsertFails h || has_nul name = false ->
        exists hsh, Repo h' = Some (<[name := (private, hsh)]> db) /\
          (private = true /\ password <> "" -> GenerateFromPassword password = Hashed hsh) /\
          (private = false \/ password = "" -> hsh = ""))).
Proof.
  intros E Hres. unfold CreateRoom in E.
  destruct (str_eqb name "" || (50 <? String.length name)%nat) eqn:Hname.
  { injection E as <- <-. simpl in Hres. destruct Hres as [Hr|[err Hr]]; congruence. }
  apply orb_false_iff in Hname as [Hn Hl].
  apply bool_decide_eq_false_1 in Hn. apply Nat.ltb_ge in Hl.
  do 2 (split; [assumption|]).
  unfold bind at 1, get in E.
  destruct (match Repo h with Some db => bool_decide (is_Some (db !! name)) | None => false end)
    eqn:Hrepo.
  { injection E as <- <-. simpl in Hres. destruct Hres as [Hr|[err Hr]]; congruence. }
  destruct (bool_decide (is_Some (Rooms h !! name))) eqn:Hmem.
  { injection E as <- <-. simpl in Hres. destruct Hres as [Hr|[err Hr]]; congruence. }
  apply bool_decide_eq_false_1 in Hmem. apply eq_None_not_Some in Hmem.
  split; [exact Hmem|].
  split.
  { intros db Hdb. rewrite Hdb in Hrepo. apply bool_decide_eq_false_1 in Hrepo.
    apply eq_None_not_Some, Hrepo. }
  unfold Publish, bind, get, modify, ret, panic in E. cbv zeta in E.
  destruct (Repo h) as [db|] eqn:Hdb.
  - destruct (private && negb (str_eqb password "")) eqn:Hp.
    + apply andb_true_iff in Hp as [-> Hp]. apply negb_true_iff, bool_decide_eq_false_1 in Hp.
      destruct (GenerateFromPassword password) as [hsh|err] eqn:Hg.
      * destruct (RepoInsertFails h || has_nul name) eqn:Hf; repeat (case_match; simplify_eq/=).
        all: repeat split; try reflexivity; try (intros; discriminate); try (intros; congruence).
        all: intros; simplify_eq/=; first [reflexivity | assumption |
          (eexists; split; [reflexivity|]; split;
           [intros; reflexivity | intros [Hf'|Hf']; [discriminate | contradiction]])].
      * simplify_eq/=. repeat split; try reflexivity; try (intros; discriminate).
        all: simplify_eq/=; first [reflexivity | assumption | (eexists; split; reflexivity)].
    + destruct (RepoInsertFails h || has_nul name) eqn:Hf; repeat (case_match; simplify_eq/=).
      all: repeat split; try reflexivity; try (intros; discriminate); try (intros; congruence).
      all: intros; simplify_eq/=; first [reflexivity | assumption |
        (eexists; split; [reflexivity|]; split; [|reflexivity]; intros [-> Hne]; exfalso;
         simpl in Hp; apply negb_false_iff, bool_decide_eq_true_1 in Hp; contradiction)].
  - repeat (case_match; simplify_eq/=).
    all: repeat split; try reflexivity; try (intros; discriminate); try (intros; congruence).
Qed.

Lemma DeleteRoom_no_creator (h : Hub) (name : string) (r : nat) (x : Room) (c : nat) :
  Rooms h !! name = Some r -> room_heap h !! r = Some x -> r_Creator x = None ->
  DeleteRoom c name h = Some (Some NotCreator, h).
Proof.
  intros HR Hx Hc. cbv [DeleteRoom bind get load_room ret]. rewrite HR, Hx.
  unfold IsCreator. rewrite Hc. reflexivity.
Qed.

Lemma CreateRoom_hash_failed `{Bcrypt} (name pw err : string) (maxc : Z) (h : Hub) :
  GenerateFromPassword pw = GenError err -> pw <> "" -> is_Some (Repo h) ->
  name <> "" -> (String.length name <= 50)%nat -> Rooms h !! name = None ->
  (forall db, Repo h = Some db -> db !! name = None) ->
  CreateRoom name true pw maxc h =
  Some ((None, Some (HashFailed err)),
        upd_core id (<[name := next_ref h]>) id id
          (upd_heaps (<[next_ref h := NewRoom name true pw maxc]>) id S h)).
Proof.
  intros Hg Hp [db Hdb] Hn Hl Hmem Hrepo. unfold CreateRoom.
  rewrite CreateRoom_name_ok by assumption. unfold bind, get, modify, ret. cbv beta iota.
  rewrite Hdb, bool_decide_eq_false_2 by (rewrite (Hrepo db Hdb); apply is_Some_None).
  rewrite bool_decide_eq_false_2 by (rewrite Hmem; apply is_Some_None).
  cbn [Repo upd_core upd_heaps].
  assert (Hne : str_eqb pw "" = false) by (apply bool_decide_eq_false_2, Hp).
  rewrite Hne. simpl. rewrite Hg. reflexivity.
Qed.

Lemma conn_write_wire (c : nat) (p : string) (h h' : Hub) (u : unit) :
  conn_write c p h = Some (u, h') ->
  exists cl, client_heap h !! c = Some cl /\ c_Conn cl <> NoConn /\
    wire h' = wire h ++ (match c_Conn cl with ConnOk => [(c, p)] | _ => [] end).
Proof.
  intros E. unfold conn_write, bind, load_client in E.
  destruct (client_heap h !! c) as [cl|] eqn:Hcl; [|discriminate]. exists cl.
  split; [reflexivity|]. unfold modify, ret, panic in E.
  destruct (c_Conn cl); [discriminate | injection E as _ <- | injection E as _ <-];
    (split; [discriminate|]); simpl; [reflexivity | rewrite app_nil_r; reflexivity].
Qed.

(** A create-room request where bcrypt fails on the password.
    The room stays registered under its name, with no creator and no
    repository row. The session is told the error, with bcrypt's own
    message after "failed to hash password: ". No session at all can
    delete the room. *)
Theorem HandleCreateRoom_hash_failure `{Bcrypt} (c : nat) (name pw err : string) (h h' : Hub) :
  GenerateFromPassword pw = GenError err -> pw <> "" -> is_Some (Repo h) ->
  name <> "" -> (String.length name <= 50)%nat -> Rooms h !! name = None ->
  (forall db, Repo h = Some db -> db !! name = None) ->
  HandleCreateRoom c name true pw h = Some (tt, h') ->
  Rooms h' !! name = Some (next_ref h) /\
  room_heap h' !! next_ref h = Some (NewRoom name true pw 100) /\
  Repo h' = Repo h /\ published h' = published h /\
  (exists cl, client_heap h !! c = Some cl /\
     wire h' = wire h ++ (match c_Conn cl with
                          | ConnOk => [(c, "Error creating room: failed to hash password: " +:+ err)]
                          | _ => []
                          end)) /\
  forall c', DeleteRoom c' name h' = Some (Some NotCreator, h').
Proof.
  intros Hg Hp Hrepo Hn Hl Hmem Hdb E. unfold HandleCreateRoom in E.
  split_bind E as res h1 E1.
  rewrite (CreateRoom_hash_failed name pw err 100 h Hg Hp Hrepo Hn Hl Hmem Hdb) in E1.
  injection E1 as <- <-.
  assert (K : same core_of _ h') by frame_of (same core_of) E.
  assert (Kp : same published _ h') by (unfold conn_write in E; frame_of (same published) E).
  apply conn_write_wire in E as (cl & Hcl & _ & Hw).
  apply core_of_eq in K. destruct K as (_ & KR & _ & _ & KH & KC & _ & KP).
  cbn [Rooms room_heap client_heap Repo upd_core upd_heaps id] in KR, KH, KC, KP, Hcl, Hw.
  assert (HR : Rooms h' !! name = Some (next_ref h)) by (rewrite KR; apply lookup_insert_eq).
  assert (HX : room_heap h' !! next_ref h = Some (NewRoom name true pw 100))
    by (rewrite KH; apply lookup_insert_eq).
  split; [exact HR|]. split; [exact HX|]. split; [exact KP|].
  split; [exact Kp|].
  split; [exists cl; split; [exact Hcl | exact Hw]|].
  intros c'. exact (DeleteRoom_no_creator h' name _ _ c' HR HX eq_refl).
Qed.


(** A create-room request that succeeds makes the session the
    creator of the new room and tells it so. Only that session can delete
    the room. *)
Theorem HandleCreateRoom_creator `{Bcrypt} (c : nat) (name : string) (private : bool)
    (pw : string) (h h1 h' : Hub) (r : nat) :
  CreateRoom name private pw 100 h = Some ((Some r, None), h1) ->
  HandleCreateRoom c name private pw h = Some (tt, h') ->
  Rooms h' !! name = Some r /\
  room_heap h' !! r = Some (SetCreator (NewRoom name private pw 100) c) /\
  (exists cl, client_heap h' !! c = Some cl /\
     wire h' = wire h1 ++ (match c_Conn cl with
                           | ConnOk => [(c, "Room '" +:+ name +:+ "' created successfully")]
                           | _ => []
                           end)) /\
  (forall c', c' <> c -> DeleteRoom c' name h' = Some (Some NotCreator, h')) /\
  exists h'', DeleteRoom c name h' = Some (None, h'').
Proof.
  intros E1 E. unfold HandleCreateRoom in E.
  assert (Hres : fst (Some r, @None HubError) <> None \/
                 exists err, snd (Some r, @None HubError) = Some (HashFailed err))
    by (left; discriminate).
  destruct (CreateRoom_fresh name private pw 100 h _ h1 E1 Hres)
    as (_ & _ & _ & _ & HR & HH & _ & _ & _ & _ & Hok).
  destruct (Hok eq_refl) as (Hr & _ & _). cbn [fst] in Hr. injection Hr as ->.
  split_bind E as res h2 E2. rewrite E1 in E2. injection E2 as <- <-.
  split_bind E as t h3 E3. unfold call_room in E3. rewrite HH, lookup_insert_eq in E3.
  injection E3 as _ <-.
  assert (K : same core_of _ h') by frame_of (same core_of) E.
  apply conn_write_wire in E as (cl & Hcl & _ & Hw).
  apply core_of_eq in K. destruct K as (_ & KR & _ & _ & KH & KC & _ & _).
  cbn [Rooms room_heap client_heap wire upd_core upd_heaps id] in KR, KH, KC, Hcl, Hw.
  assert (HR' : Rooms h' !! name = Some (next_ref h)) by (rewrite KR, HR; apply lookup_insert_eq).
  assert (HX : room_heap h' !! next_ref h = Some (SetCreator (NewRoom name private pw 100) c))
    by (rewrite KH, lookup_insert_eq; reflexivity).
  split; [exact HR'|]. split; [exact HX|].
  split; [exists cl; split; [rewrite KC; exact Hcl | exact Hw]|].
  destruct (DeleteRoom_creator_check h' c name _ _ HR' HX eq_refl) as [Hother Hself].
  split; [exact Hother|]. apply Hself. rewrite KC. eauto.
Qed.

(** A DeleteRoom that fails changes nothing. It fails exactly
    when the name is not registered, or when the caller is not the recorded
    creator: a failure has one of these two causes, and each cause gives
    that failure with the hub unchanged. *)
Theorem DeleteRoom_error_unchanged (h : Hub) (c : nat) (name : string) :
  (forall e h', DeleteRoom c name h = Some (Some e, h') ->
    h' = h /\
    ((e = RoomDoesNotExist /\ Rooms h !! name = None) \/
     (e = NotCreator /\ exists r x, Rooms h !! name = Some r /\ room_heap h !! r = Some x /\
        r_Creator x <> Some c))) /\
  (Rooms h !! name = None -> DeleteRoom c name h = Some (Some RoomDoesNotExist, h)) /\
  (forall r x, Rooms h !! name = Some r -> room_heap h !! r = Some x -> r_Creator x <> Some c ->
     DeleteRoom c name h = Some (Some NotCreator, h)).
Proof.
  split; [|split].
  - intros e h' E. cbv [DeleteRoom bind get load_room load_client send_Broadcast modify ret] in E.
    destruct (Rooms h !! name) as [r|] eqn:HR.
    2:{ injection E as <- <-. split; [reflexivity|]. left. auto. }
    destruct (room_heap h !! r) as [x|] eqn:Hx; [|discriminate].
    destruct (IsCreator x c) eqn:Hi; simpl in E.
    + destruct (client_heap h !! c); discriminate.
    + injection E as <- <-. split; [reflexivity|]. right. split; [reflexivity|].
      exists r, x. split; [reflexivity|]. split; [exact Hx|].
      intros Hc. apply IsCreator_spec in Hc. congruence.
  - intros HR. cbv [DeleteRoom bind get ret]. rewrite HR. reflexivity.
  - intros r x HR Hx Hc. cbv [DeleteRoom bind get load_room ret]. rewrite HR, Hx.
    destruct (IsCreator x c) eqn:Hi; [apply IsCreator_spec in Hi; contradiction|].
    reflexivity.
Qed.





(** The size limit from WS_MAX_MESSAGE_SIZE always lies between
    1 byte and 1 MiB. Under it, ValidateMessageSize accepts exactly the
    sizes from 1 up to the limit, so its third check never fires. *)
Theorem GetMaxMessageSize_limit (env : string) :
  1 <= GetMaxMessageSize env <= MaxMessageSize /\
  forall size,
    (ValidateMessageSizeErr size (GetMaxMessageSize env) = None <->
     1 <= size <= GetMaxMessageSize env) /\
    ValidateMessageSize size (GetMaxMessageSize env) =
      match ValidateMessageSizeErr size (GetMaxMessageSize env) with None => true | Some _ => false end.
Proof.
  assert (Hb : 1 <= GetMaxMessageSize env <= MaxMessageSize).
  { unfold GetMaxMessageSize, MaxMessageSizeDefault, MaxMessageSize.
    destruct env as [|a s]; [lia|].
    destruct (Atoi (String a s)) as [v|]; [|lia].
    destruct (0 <? v) eqn:E1; [|lia]. apply Z.ltb_lt in E1.
    destruct (1024 * 1024 <? v) eqn:E2; [lia|]. apply Z.ltb_ge in E2. lia. }
  split; [exact Hb|]. intros size.
  revert Hb. generalize (GetMaxMessageSize env). intros mx Hb.
  unfold ValidateMessageSizeErr, ValidateMessageSize, MinMessageSize.
  destruct (size <? 1) eqn:E1; [apply Z.ltb_lt in E1|apply Z.ltb_ge in E1];
  (destruct (mx <? size) eqn:E2; [apply Z.ltb_lt in E2|apply Z.ltb_ge in E2]);
  (destruct (MaxMessageSize <? size) eqn:E3; [apply Z.ltb_lt in E3|apply Z.ltb_ge in E3]);
  unfold MaxMessageSize in *; simpl; first [exfalso; lia |
    split; [split; [intros; (discriminate || lia) | intros; (reflexivity || lia)] | reflexivity]].
Qed.

(** Distinct room names have distinct bus subjects. A room
    subject never equals the global chat subject, the room.sync subject or
    a presence subject. *)
Theorem RoomSubject_distinct (n1 n2 : string) :
  (RoomSubject n1 = RoomSubject n2 <-> n1 = n2) /\
  RoomSubject n1 <> SubjectGlobalChat /\ RoomSubject n1 <> SubjectRoomSync /\
  RoomSubject n1 <> PresenceSubject n2.
Proof.
  unfold RoomSubject, PresenceSubject, SubjectRoomPrefix, SubjectPresencePrefix,
    SubjectGlobalChat, SubjectRoomSync.
  split; [|split; [|split]]; cbn.
  - split; [intros H; injection H as H; exact H | intros ->; reflexivity].
  - discriminate.
  - discriminate.
  - discriminate.
Qed.

(** The room.sync callback never fails and never replaces a
    registered room. For an unknown name it registers a room built with the
    decoded fields, using "", false, "" and 100 when a field is missing. It
    does not validate the name or the bound. It leaves the repository, the
    sessions and the bus untouched. *)
Theorem room_sync_effect (d : option RoomSyncData) (h : Hub) :
  exists h', room_sync d h = Some (tt, h') /\
    Repo h' = Repo h /\ Clients h' = Clients h /\ client_heap h' = client_heap h /\
    ClientRooms h' = ClientRooms h /\ published h' = published h /\ subs h' = subs h /\
    (forall n r, Rooms h !! n = Some r -> Rooms h' !! n = Some r) /\
    (d = None -> h' = h) /\
    forall d0, d = Some d0 ->
      let name := default ""%string (rs_name d0) in
      (is_Some (Rooms h !! name) -> h' = h) /\
      (Rooms h !! name = None ->
         Rooms h' !! name = Some (next_ref h) /\
         room_heap h' !! next_ref h =
           Some (NewRoom name (default false (rs_private d0)) (default ""%string (rs_password d0))
                   (default 100 (rs_maxClients d0)))).
Proof.
  destruct d as [d0|].
  - unfold room_sync, bind, get, modify, ret. cbv beta iota.
    destruct (bool_decide (is_Some (Rooms h !! default ""%string (rs_name d0)))) eqn:E.
    + apply bool_decide_eq_true_1 in E.
      eexists; split; [reflexivity|].
      do 8 (split; [first [reflexivity | intros; assumption | discriminate]|]).
      intros d1 [= <-]. split; [reflexivity|]. intros Hn. rewrite Hn in E. by destruct E.
    + apply bool_decide_eq_false_1 in E. apply eq_None_not_Some in E.
      eexists; split; [reflexivity|]. cbn.
      do 6 (split; [reflexivity|]). split.
      { intros n r Hr. rewrite lookup_insert_ne; [exact Hr|]. intros <-. congruence. }
      split; [discriminate|].
      intros d1 [= <-]. split; [intros Hs; rewrite E in Hs; by destruct Hs|].
      intros _. rewrite !lookup_insert_eq. split; reflexivity.
  - exists h. split; [reflexivity|].
    do 8 (split; [first [reflexivity | intros; assumption]|]). discriminate.
Qed.

Lemma room_dtos_spec (c : nat) (l : list (string * nat)) (h : Hub) :
  (forall n r, (n, r) ∈ l -> is_Some (room_heap h !! r)) ->
  exists ds, room_dtos c l h = Some (ds, h) /\ map dto_Name ds = map fst l /\
    forall d, d ∈ ds -> exists r x, (dto_Name d, r) ∈ l /\ room_heap h !! r = Some x /\
      dto_Private d = r_Private x /\ dto_ClientCount d = size (r_Clients x) /\
      (dto_IsCreator d = true <-> r_Creator x = Some c).
Proof.
  induction l as [|[n r] l IH]; intros Hl.
  - exists []. split; [reflexivity|]. split; [reflexivity|]. intros d Hd. inversion Hd.
  - destruct (Hl n r (list_elem_of_here _ _)) as [x Hx].
    destruct IH as (ds & E & Hn & Hd).
    { intros n' r' Hin. apply (Hl n' r'). by apply list_elem_of_further. }
    exists (mkRoomDTO n (r_Private x) (size (r_Clients x)) (bool_decide (r_Creator x = Some c)) :: ds).
    split.
    { cbn. unfold load_room, bind, ret. rewrite Hx. cbv beta iota. rewrite E. reflexivity. }
    split; [cbn; by rewrite Hn|].
    intros d Hin. apply elem_of_cons in Hin as [->|Hin].
    + exists r, x. cbn. split; [apply list_elem_of_here|]. split; [exact Hx|].
      split; [reflexivity|]. split; [reflexivity|]. apply bool_decide_eq_true.
    + destruct (Hd d Hin) as (r' & x' & H1 & H2).
      exists r', x'. split; [by apply list_elem_of_further|exact H2].
Qed.

(** GetRoomList changes nothing. It lists one entry per registered
    name, carrying the room's privacy flag and member count, and whether
    the caller is its creator. This holds when no registered name points to
    a missing room. *)
Theorem GetRoomList_spec (c : nat) (h : Hub) :
  (forall n r, Rooms h !! n = Some r -> is_Some (room_heap h !! r)) ->
  exists ds, GetRoomList c h = Some (ds, h) /\ map dto_Name ds = map fst (map_to_list (Rooms h)) /\
    forall d, d ∈ ds -> exists r x, Rooms h !! dto_Name d = Some r /\ room_heap h !! r = Some x /\
      dto_Private d = r_Private x /\ dto_ClientCount d = GetClientCount x /\
      (dto_IsCreator d = true <-> IsCreator x c = true).
Proof.
  intros Hr.
  destruct (room_dtos_spec c (map_to_list (Rooms h)) h) as (ds & E & Hn & Hd).
  { intros n r Hin. apply elem_of_map_to_list in Hin. exact (Hr n r Hin). }
  exists ds. split; [exact E|]. split; [exact Hn|].
  intros d Hin. destruct (Hd d Hin) as (r & x & H1 & H2 & H3 & H4 & H5).
  exists r, x. split; [by apply elem_of_map_to_list|]. do 3 (split; [assumption|]).
  rewrite H5. unfold IsCreator. destruct (r_Creator x) as [c'|]; [|split; discriminate].
  rewrite Nat.eqb_eq. split; [intros [= ->]; reflexivity|intros ->; reflexivity].
Qed.

(** The Unregister case of Run removes the session from the
    registered set. It decrements the counter only if the session was
    registered, and closes the connection only then and if it is not nil. It always queues a "has left the
    chat" notice. Room member sets, the client-to-room index and the
    session record stay as they were. *)
Theorem run_unregister_effect (h h' : Hub) (c : nat) (u : unit) :
  run_unregister (Some c) h = Some (u, h') ->
  exists cl, client_heap h !! c = Some cl /\
    Clients h' = Clients h ∖ {[c]} /\
    UserCount h' = (if bool_decide (c ∈ Clients h) then UserCount h - 1 else UserCount h) /\
    closed_conns h' = closed_conns h ++
      (if bool_decide (c ∈ Clients h) && match c_Conn cl with NoConn => false | _ => true end
       then [c] else []) /\
    Broadcast_q h' = Broadcast_q h ++
      [mkMessage "" ("[" +:+ clock h +:+ "] " +:+ c_Name cl +:+ " has left the chat")
         MsgTypeLeave None None ""] /\
    Rooms h' = Rooms h /\ ClientRooms h' = ClientRooms h /\
    room_heap h' = room_heap h /\ client_heap h' = client_heap h.
Proof.
  intros E. unfold run_unregister, send_Broadcast, load_client, bind, get, modify, ret in E.
  cbv beta iota in E.
  destruct (bool_decide (c ∈ Clients h)) eqn:Hc.
  - apply bool_decide_eq_true_1 in Hc. cbn in E.
    destruct (client_heap h !! c) as [cl|] eqn:Hcl; [|discriminate].
    exists cl. split; [reflexivity|].
    destruct (c_Conn cl); cbn in E; rewrite Hcl in E; injection E as <- <-; cbn;
      repeat split; rewrite ?app_nil_r; reflexivity.
  - apply bool_decide_eq_false_1 in Hc.
    destruct (client_heap h !! c) as [cl|] eqn:Hcl; [|discriminate].
    exists cl. split; [reflexivity|]. injection E as <- <-. cbn.
    rewrite ?app_nil_r.
    split; [apply leibniz_equiv; set_solver|]. repeat split; reflexivity.
Qed.

(** ** The online-user counter *)

Lemma frame_call_room_count {A} r (f : Room -> A * Room) : frame (same count_of) (call_room r f).
Proof.
  intros h a h' E. unfold call_room in E.
  destruct (room_heap h !! r); [injection E as _ <-; reflexivity|discriminate].
Qed.
Lemma frame_call_client_count {A} c (f : Client -> A * Client) : frame (same count_of) (call_client c f).
Proof.
  intros h a h' E. unfold call_client in E.
  destruct (client_heap h !! c); [injection E as _ <-; reflexivity|discriminate].
Qed.
#[export] Hint Resolve frame_call_room_count frame_call_client_count : frame.

Lemma Publish_count s m : frame (same count_of) (Publish s m).
Proof. unfold Publish. frame_auto. Qed.
Lemma Subscribe_count s hd : frame (same count_of) (Subscribe s hd).
Proof. unfold Subscribe. frame_auto. Qed.
Lemma conn_write_count c p : frame (same count_of) (conn_write c p).
Proof. unfold conn_write. frame_auto. Qed.
Lemma send_Unregister_count c : frame (same count_of) (send_Unregister c).
Proof. unfold send_Unregister. frame_auto. Qed.
Lemma send_Broadcast_count m : frame (same count_of) (send_Broadcast m).
Proof. unfold send_Broadcast. frame_auto. Qed.
#[export] Hint Resolve Publish_count Subscribe_count conn_write_count send_Unregister_count
  send_Broadcast_count : frame.
Lemma broadcast_loop_count n m cs rm : frame (same count_of) (broadcast_loop n m cs rm).
Proof. revert rm. induction cs as [|c cs IH]; intros rm; simpl; frame_auto. Qed.
#[export] Hint Resolve broadcast_loop_count : frame.
Lemma BroadcastToRoom_count r m : frame (same count_of) (BroadcastToRoom r m).
Proof. unfold BroadcastToRoom. frame_auto. Qed.
#[export] Hint Resolve BroadcastToRoom_count : frame.
Lemma leaveRoomInternal_count c : frame (same count_of) (leaveRoomInternal c).
Proof. unfold leaveRoomInternal. frame_auto. Qed.
#[export] Hint Resolve leaveRoomInternal_count : frame.
Lemma JoinRoom_count `{Bcrypt} c r pw : frame (same count_of) (JoinRoom c r pw).
Proof. unfold JoinRoom. frame_auto. Qed.
Lemma DeleteRoom_count c n : frame (same count_of) (DeleteRoom c n).
Proof. unfold DeleteRoom. frame_auto. Qed.
Lemma CreateRoom_count `{Bcrypt} n p pw mc : frame (same count_of) (CreateRoom n p pw mc).
Proof. unfold CreateRoom. frame_auto. Qed.
Lemma global_loop_count m cs rm : frame (same count_of) (global_loop m cs rm).
Proof. revert rm. induction cs as [|c cs IH]; intros rm; simpl; frame_auto. Qed.

Lemma count_ok_same (h h' : Hub) : same count_of h h' -> count_ok h -> count_ok h'.
Proof. unfold same, count_of, count_ok. intros [= -> ->]. auto. Qed.

Lemma size_remove_member (c : nat) (X : gset nat) :
  c ∈ X -> Z.of_nat (size (X ∖ {[c]})) = Z.of_nat (size X) - 1.
Proof.
  intros Hc. assert (E : X = {[c]} ∪ X ∖ {[c]}).
  { apply leibniz_equiv. intros y. destruct (decide (y = c)); set_solver. }
  assert (Hs : size X = S (size (X ∖ {[c]}))).
  { rewrite E at 1. rewrite size_union by set_solver. rewrite size_singleton. reflexivity. }
  lia.
Qed.

Lemma remove_failed_count c h u h' : remove_failed c h = Some (u, h') -> count_ok h -> count_ok h'.
Proof.
  unfold remove_failed, bind, get, modify, ret. cbv beta iota. intros E Hc.
  destruct (bool_decide (c ∈ Clients h)) eqn:Hm; injection E as _ <-; [|exact Hc].
  apply bool_decide_eq_true_1 in Hm. unfold count_ok in *. cbn.
  rewrite size_remove_member by exact Hm. lia.
Qed.

Lemma mapM_remove_failed_count l h u h' :
  mapM_ remove_failed l h = Some (u, h') -> count_ok h -> count_ok h'.
Proof.
  revert h. induction l as [|c l IH]; intros h E Hc; simpl in E.
  - injection E as _ <-. exact Hc.
  - split_bind E as t h1 E1. exact (IH h1 E (remove_failed_count c h t h1 E1 Hc)).
Qed.

Lemma run_broadcast_count m h u h' : run_broadcast m h = Some (u, h') -> count_ok h -> count_ok h'.
Proof.
  unfold run_broadcast. intros E Hc.
  split_bind E as h0 h1 E0. injection E0 as <- <-.
  split_bind E as t h2 E0.
  assert (Hp : forall b : bool,
    frame (same count_of) (if b then Publish SubjectGlobalChat m ;;; ret tt else ret tt))
    by (intros []; frame_auto).
  assert (Hc2 : count_ok h2) by exact (count_ok_same _ _ (Hp _ _ _ _ E0) Hc).
  destruct (MRoom m) as [r|].
  - exact (count_ok_same _ _ (BroadcastToRoom_count r m _ _ _ E) Hc2).
  - split_bind E as h3 h4 E1. injection E1 as <- <-.
    split_bind E as rm h5 E1.
    apply (mapM_remove_failed_count rm h5 u h' E).
    exact (count_ok_same _ _ (global_loop_count _ _ _ _ _ _ E1) Hc2).
Qed.

Lemma run_unregister_count c h u h' : run_unregister (Some c) h = Some (u, h') -> count_ok h -> count_ok h'.
Proof.
  unfold run_unregister, send_Broadcast, load_client, bind, get, modify, ret. cbv beta iota.
  intros E Hc. unfold count_ok in *.
  destruct (bool_decide (c ∈ Clients h)) eqn:Hm.
  - apply bool_decide_eq_true_1 in Hm. cbn in E.
    destruct (client_heap h !! c) as [cl|]; [|discriminate].
    destruct (c_Conn cl); cbn in E;
      (destruct (client_heap h !! c); [|discriminate]); injection E as _ <-; cbn;
      rewrite size_remove_member by exact Hm; lia.
  - destruct (client_heap h !! c); [|discriminate]. injection E as _ <-. exact Hc.
Qed.

Lemma run_register_count c h u h' :
  c ∉ Clients h -> run_register (Some c) h = Some (u, h') -> count_ok h -> count_ok h'.
Proof.
  unfold run_register, store_client, load_client, bind, modify, ret, panic. cbv beta iota.
  intros Hn E Hc. unfold count_ok in *.
  assert (Hs : Z.of_nat (size ({[c]} ∪ Clients h)) = 1 + Z.of_nat (size (Clients h))).
  { rewrite size_union by set_solver. rewrite size_singleton. lia. }
  cbn in E. destruct (client_heap h !! c) as [cl|]; [|discriminate].
  destruct (c_RegisteredOnce_done cl); [|destruct (c_Registered_closed cl); [discriminate|]];
    injection E as _ <-; cbn; rewrite Hs; lia.
Qed.

Lemma load_rows_count rows : frame (same count_of) (load_rows rows).
Proof. induction rows as [|[n [p hs]] rows IH]; simpl; frame_auto. Qed.
#[export] Hint Resolve load_rows_count : frame.
Lemma LoadRoomsFromDB_count : frame (same count_of) LoadRoomsFromDB.
Proof. unfold LoadRoomsFromDB. frame_auto. Qed.

(** The online-user counter equals the size of the registered
    set. This is kept by Unregister, by Broadcast (which drops sessions
    whose write fails), by registering a session that is not yet
    registered, and by the room operations. *)
Theorem user_count_invariant `{Bcrypt} (h h' : Hub) :
  count_ok h ->
  (forall c u, run_unregister (Some c) h = Some (u, h') -> count_ok h') /\
  (forall m u, run_broadcast m h = Some (u, h') -> count_ok h') /\
  (forall c u, c ∉ Clients h -> run_register (Some c) h = Some (u, h') -> count_ok h') /\
  (forall c r pw e, JoinRoom c r pw h = Some (e, h') -> count_ok h') /\
  (forall c u, LeaveRoom c h = Some (u, h') -> count_ok h') /\
  (forall n p pw mc res, CreateRoom n p pw mc h = Some (res, h') -> count_ok h') /\
  (forall c n e, DeleteRoom c n h = Some (e, h') -> count_ok h') /\
  (forall u, LoadRoomsFromDB h = Some (u, h') -> count_ok h').
Proof.
  intros Hc. split; [|split; [|split; [|split; [|split; [|split; [|split]]]]]].
  - intros c u E. exact (run_unregister_count c h u h' E Hc).
  - intros m u E. exact (run_broadcast_count m h u h' E Hc).
  - intros c u Hn E. exact (run_register_count c h u h' Hn E Hc).
  - intros c r pw e E. exact (count_ok_same _ _ (JoinRoom_count c r pw _ _ _ E) Hc).
  - intros c u E. exact (count_ok_same _ _ (leaveRoomInternal_count c _ _ _ E) Hc).
  - intros n p pw mc res E. exact (count_ok_same _ _ (CreateRoom_count n p pw mc _ _ _ E) Hc).
  - intros c n e E. exact (count_ok_same _ _ (DeleteRoom_count c n _ _ _ E) Hc).
  - intros u E. exact (count_ok_same _ _ (LoadRoomsFromDB_count _ _ _ E) Hc).
Qed.

(** ** Delivery *)

Lemma upd_effects_wire_app (h : Hub) (l1 l2 : list (nat * string)) :
  upd_effects id id id id id (fun w => w ++ l2) id (upd_effects id id id id id (fun w => w ++ l1) id h) =
  upd_effects id id id id id (fun w => w ++ l1 ++ l2) id h.
Proof. unfold upd_effects. cbn. rewrite app_assoc. reflexivity. Qed.

Lemma upd_effects_wire_nil (h : Hub) : upd_effects id id id id id (fun w => w ++ []) id h = h.
Proof. destruct h. unfold upd_effects. cbn. rewrite app_nil_r. reflexivity. Qed.

Lemma global_loop_spec (m : Message) (cs rm rm' : list nat) (h h' : Hub) :
  global_loop m cs rm h = Some (rm', h') ->
  rm' = rm ++ filter (fun c => (negb (str_eqb (Type_ m) MsgTypeChat && bool_decide (Sender m = Some c))
                               && conn_is_broken (conn_of h c)) = true) cs /\
  h' = upd_effects id id id id id
         (fun w => w ++ map (fun c => (c, Content m))
            (filter (fun c => (negb (str_eqb (Type_ m) MsgTypeChat && bool_decide (Sender m = Some c))
                               && conn_is_ok (conn_of h c)) = true) cs)) id h.
Proof.
  revert rm h. induction cs as [|c cs IH]; intros rm h E.
  - injection E as <- <-. cbn. rewrite app_nil_r, upd_effects_wire_nil. split; reflexivity.
  - simpl in E. rewrite !filter_cons.
    destruct (str_eqb (Type_ m) MsgTypeChat && bool_decide (Sender m = Some c)) eqn:S.
    + cbn [negb andb]. rewrite !decide_False by discriminate. exact (IH rm h E).
    + cbn [negb andb].
      split_bind E as cl h1 E1. unfold load_client in E1.
      destruct (client_heap h !! c) as [cl'|] eqn:Hcl; [|discriminate].
      injection E1 as <- <-.
      assert (Hc : conn_of h c = Some (c_Conn cl')) by (unfold conn_of; rewrite Hcl; reflexivity).
      rewrite Hc.
      destruct (c_Conn cl'); cbn [conn_is_ok conn_is_broken].
      * rewrite !decide_False by discriminate. exact (IH rm h E).
      * rewrite decide_False by discriminate. rewrite decide_True by reflexivity.
        split_bind E as t h2 E2. injection E2 as _ <-.
        destruct (IH rm _ E) as [Hr Hh]. split; [exact Hr|].
        rewrite Hh, upd_effects_wire_app. reflexivity.
      * rewrite decide_True by reflexivity. rewrite decide_False by discriminate.
        destruct (IH _ h E) as [Hr Hh]. split; [|exact Hh].
        rewrite Hr, <- app_assoc. reflexivity.
Qed.

Lemma broadcast_loop_valid (n : string) (m : Message) (cs rm : list nat) (res : option (list nat))
    (h h' : Hub) :
  ValidateMessageSizeErr (Z.of_nat (String.length (Content m)))
    (GetMaxMessageSize (WSMaxMessageSize h)) = None ->
  broadcast_loop n m cs rm h = Some (res, h') ->
  res = Some (rm ++ filter (fun c => (negb (str_eqb (Type_ m) MsgTypeRoomMessage && bool_decide (Sender m = Some c))
                                      && conn_is_broken (conn_of h c)) = true) cs) /\
  h' = upd_effects id id id id id
         (fun w => w ++ map (fun c => (c, ("[" +:+ n +:+ "] " +:+ Content m)%string))
            (filter (fun c => (negb (str_eqb (Type_ m) MsgTypeRoomMessage && bool_decide (Sender m = Some c))
                               && conn_is_ok (conn_of h c)) = true) cs)) id h.
Proof.
  revert rm h. induction cs as [|c cs IH]; intros rm h V E.
  - injection E as <- <-. cbn. rewrite app_nil_r, upd_effects_wire_nil. split; reflexivity.
  - simpl in E. rewrite !filter_cons.
    split_bind E as cl h1 E1. unfold load_client in E1.
    destruct (client_heap h !! c) as [cl'|] eqn:Hcl; [|discriminate].
    injection E1 as <- <-.
    assert (Hc : conn_of h c = Some (c_Conn cl')) by (unfold conn_of; rewrite Hcl; reflexivity).
    rewrite Hc.
    destruct (str_eqb (Type_ m) MsgTypeRoomMessage && bool_decide (Sender m = Some c)) eqn:S.
    + cbn [negb andb]. rewrite !decide_False by discriminate.
      destruct (c_Conn cl'); exact (IH rm h V E).
    + cbn [negb andb].
      destruct (c_Conn cl') eqn:Hk; cbn [conn_is_ok conn_is_broken].
      * rewrite !decide_False by discriminate. exact (IH rm h V E).
      * split_bind E as h0 h2 E2. injection E2 as <- <-. rewrite V in E.
        rewrite decide_False by discriminate. rewrite decide_True by reflexivity.
        split_bind E as t h2 E2. injection E2 as _ <-.
        assert (V' : ValidateMessageSizeErr (Z.of_nat (String.length (Content m)))
          (GetMaxMessageSize (WSMaxMessageSize (upd_effects id id id id id
             (fun w => w ++ [(c, ("[" +:+ n +:+ "] " +:+ Content m)%string)]) id h))) = None)
          by (destruct h; exact V).
        destruct (IH rm _ V' E) as [Hr Hh]. split; [exact Hr|].
        rewrite Hh, upd_effects_wire_app. reflexivity.
      * split_bind E as h0 h2 E2. injection E2 as <- <-. rewrite V in E.
        rewrite decide_True by reflexivity. rewrite decide_False by discriminate.
        destruct (IH _ h V E) as [Hr Hh]. split; [|exact Hh].
        rewrite Hr, <- app_assoc. reflexivity.
Qed.

Lemma broadcast_loop_invalid (n : string) (m : Message) (cs rm : list nat) (res : option (list nat))
    (h h' : Hub) :
  ValidateMessageSizeErr (Z.of_nat (String.length (Content m)))
    (GetMaxMessageSize (WSMaxMessageSize h)) <> None ->
  broadcast_loop n m cs rm h = Some (res, h') ->
  h' = h /\ (res = None \/ res = Some rm).
Proof.
  intros V. revert rm h V. induction cs as [|c cs IH]; intros rm h V E.
  - injection E as <- <-. split; [reflexivity|right; reflexivity].
  - simpl in E. split_bind E as cl h1 E1. unfold load_client in E1.
    destruct (client_heap h !! c) as [cl'|] eqn:Hcl; [|discriminate].
    injection E1 as <- <-.
    destruct (c_Conn cl') eqn:Hk; [exact (IH rm h V E)| |].
    all: destruct (str_eqb (Type_ m) MsgTypeRoomMessage && bool_decide (Sender m = Some c));
      [exact (IH rm h V E)|].
    all: split_bind E as h0 h2 E2; injection E2 as <- <-.
    all: destruct (ValidateMessageSizeErr _ _) as [e|]; [|contradiction].
    all: injection E as <- <-; split; [reflexivity|left; reflexivity].
Qed.

Lemma mapM_send_Unregister (l : list nat) (h h' : Hub) (u : unit) :
  mapM_ send_Unregister l h = Some (u, h') ->
  h' = upd_effects id id id id (fun q => q ++ l) id id h.
Proof.
  revert h. induction l as [|c l IH]; intros h E; simpl in E.
  - injection E as _ <-. destruct h. unfold upd_effects. cbn. rewrite app_nil_r. reflexivity.
  - split_bind E as t h1 E1. injection E1 as _ <-. rewrite (IH _ E).
    unfold upd_effects. cbn. rewrite <- app_assoc. reflexivity.
Qed.

Lemma Publish_shape (s : string) (m : Message) (h h' : Hub) (b : bool) :
  Publish s m h = Some (b, h') ->
  exists p, h' = upd_effects id id (fun q => q ++ p) id id id id h.
Proof.
  unfold Publish. intros E. split_bind E as h0 h1 E0. injection E0 as <- <-.
  destruct (NATS h) as [n|]; [|discriminate].
  destruct (nats_connected n).
  - split_bind E as t h2 E0. injection E0 as _ <-. injection E as _ <-.
    eexists. reflexivity.
  - injection E as _ <-. exists []. destruct h. unfold upd_effects. cbn. rewrite app_nil_r. reflexivity.
Qed.

Lemma BroadcastToRoom_effect (r : nat) (m : Message) (h h' : Hub) (u : unit) :
  BroadcastToRoom r m h = Some (u, h') ->
  exists x p W U, room_heap h !! r = Some x /\
    h' = upd_effects id id (fun q => q ++ p) id (fun q => q ++ U) (fun w => w ++ W) id h /\
    let recv c := negb (str_eqb (Type_ m) MsgTypeRoomMessage && bool_decide (Sender m = Some c)) in
    match ValidateMessageSizeErr (Z.of_nat (String.length (Content m)))
            (GetMaxMessageSize (WSMaxMessageSize h)) with
    | None =>
        W = map (fun c => (c, ("[" +:+ r_Name x +:+ "] " +:+ Content m)%string))
              (filter (fun c => (recv c && conn_is_ok (conn_of h c)) = true) (elements (r_Clients x))) /\
        U = filter (fun c => (recv c && conn_is_broken (conn_of h c)) = true) (elements (r_Clients x))
    | Some _ => W = [] /\ U = []
    end.
Proof.
  unfold BroadcastToRoom. intros E.
  split_bind E as x h0 E0. unfold load_room in E0.
  destruct (room_heap h !! r) as [x'|] eqn:Hx; [|discriminate]. injection E0 as <- <-.
  split_bind E as h0 h1 E0. injection E0 as <- <-.
  split_bind E as t h2 E0.
  assert (Hp : exists p, h2 = upd_effects id id (fun q => q ++ p) id id id id h).
  { destruct (NATSEnabled h && bool_decide (NATS h <> None) && str_eqb (MessageID m) "").
    - split_bind E0 as b h3 E1. injection E0 as _ <-. exact (Publish_shape _ _ _ _ _ E1).
    - injection E0 as _ <-. exists []. destruct h. unfold upd_effects. cbn. rewrite app_nil_r. reflexivity. }
  destruct Hp as [p ->]. clear E0.
  split_bind E as res h3 E1.
  destruct (ValidateMessageSizeErr (Z.of_nat (String.length (Content m)))
              (GetMaxMessageSize (WSMaxMessageSize h))) as [e|] eqn:V.
  - assert (V' : ValidateMessageSizeErr (Z.of_nat (String.length (Content m)))
              (GetMaxMessageSize (WSMaxMessageSize h)) <> None) by (rewrite V; discriminate).
    apply broadcast_loop_invalid in E1; [|exact V']. destruct E1 as [-> [-> | ->]].
    + injection E as _ <-. exists x', p, [], []. split; [reflexivity|].
      split; [|split; reflexivity]. destruct h. unfold upd_effects. cbn. rewrite ?app_nil_r. reflexivity.
    + apply mapM_send_Unregister in E. subst h'. exists x', p, [], [].
      split; [reflexivity|]. split; [|split; reflexivity]. destruct h. unfold upd_effects. cbn. rewrite ?app_nil_r. reflexivity.
  - apply broadcast_loop_valid in E1; [|exact V]. destruct E1 as [-> ->].
    apply mapM_send_Unregister in E. subst h'. eexists x', p, _, _.
    split; [reflexivity|]. split; [|split; reflexivity].
    destruct h. unfold upd_effects. cbn. reflexivity.
Qed.

(** What BroadcastToRoom delivers. The size limit is
    GetMaxMessageSize of WS_MAX_MESSAGE_SIZE. If the content size passes
    ValidateMessageSize under it, each member with a working connection
    gets "[room] content". Members whose write fails are queued for
    Unregister. The sender of a room message is skipped. For an invalid size
    nothing is written and nobody is queued. The registry, the rooms and the
    heaps are not changed. *)
Theorem BroadcastToRoom_delivery (r : nat) (m : Message) (h h' : Hub) (u : unit) :
  BroadcastToRoom r m h = Some (u, h') ->
  exists x, room_heap h !! r = Some x /\
    Clients h' = Clients h /\ Rooms h' = Rooms h /\ ClientRooms h' = ClientRooms h /\
    room_heap h' = room_heap h /\ client_heap h' = client_heap h /\
    let recv c := negb (str_eqb (Type_ m) MsgTypeRoomMessage && bool_decide (Sender m = Some c)) in
    match ValidateMessageSizeErr (Z.of_nat (String.length (Content m)))
            (GetMaxMessageSize (WSMaxMessageSize h)) with
    | None =>
      wire h' = wire h ++ map (fun c => (c, ("[" +:+ r_Name x +:+ "] " +:+ Content m)%string))
                  (filter (fun c => (recv c && conn_is_ok (conn_of h c)) = true) (elements (r_Clients x))) /\
      Unregister_q h' = Unregister_q h ++
                  filter (fun c => (recv c && conn_is_broken (conn_of h c)) = true) (elements (r_Clients x))
    | Some _ => wire h' = wire h /\ Unregister_q h' = Unregister_q h
    end.
Proof.
  intros E. destruct (BroadcastToRoom_effect r m h h' u E) as (x & p & W & U & Hx & -> & HWU).
  exists x. split; [exact Hx|]. unfold upd_effects. cbn. repeat (split; [reflexivity|]).
  cbv zeta in HWU |- *.
  destruct (ValidateMessageSizeErr _ _); destruct HWU as [-> ->]; [rewrite !app_nil_r|]; split; reflexivity.
Qed.









Lemma mapM_remove_failed_spec (l : list nat) (h h' : Hub) (u : unit) :
  mapM_ remove_failed l h = Some (u, h') -> NoDup l -> (forall c, c ∈ l -> c ∈ Clients h) ->
  Clients h' = Clients h ∖ list_to_set l /\
  UserCount h' = UserCount h - Z.of_nat (length l) /\
  closed_conns h' = closed_conns h ++ l /\
  wire h' = wire h /\ Rooms h' = Rooms h /\ ClientRooms h' = ClientRooms h /\
  room_heap h' = room_heap h /\ client_heap h' = client_heap h /\
  Broadcast_q h' = Broadcast_q h /\ Unregister_q h' = Unregister_q h.
Proof.
  revert h. induction l as [|c l IH]; intros h E Hnd Hin; simpl in E.
  - injection E as _ <-. cbn. rewrite app_nil_r.
    split; [apply leibniz_equiv; set_solver|]. split; [lia|]. repeat split; reflexivity.
  - split_bind E as t h1 E1. apply NoDup_cons in Hnd as [Hc Hnd].
    unfold remove_failed, bind, get, modify, ret in E1. cbv beta iota in E1.
    assert (Hm : c ∈ Clients h) by (apply Hin; apply list_elem_of_here).
    rewrite (bool_decide_eq_true_2 _ Hm) in E1. injection E1 as _ <-.
    destruct (IH _ E Hnd) as (H1 & H2 & H3 & H4 & H5 & H6 & H7 & H8 & H9 & H10).
    { intros c' Hc'. cbn. apply elem_of_difference. split.
      - apply Hin. by apply list_elem_of_further.
      - rewrite elem_of_singleton. intros ->. exact (Hc Hc'). }
    cbn in *. rewrite H1, H2, H3, H4, H5, H6, H7, H8, H9, H10.
    split; [apply leibniz_equiv; set_solver|].
    split; [lia|]. split; [rewrite <- app_assoc; reflexivity|]. repeat split; reflexivity.
Qed.

(** The Broadcast case of Run for a message without a room. Every
    registered session with a working connection gets the content once,
    except the sender of a chat message. Sessions whose write fails are
    removed from the registered set and the counter, and are closed. Their
    room memberships and index entries stay. *)
Theorem run_broadcast_global (m : Message) (h h' : Hub) (u : unit) :
  MRoom m = None -> run_broadcast m h = Some (u, h') ->
  let recv c := negb (str_eqb (Type_ m) MsgTypeChat && bool_decide (Sender m = Some c)) in
  let broken := filter (fun c => (recv c && conn_is_broken (conn_of h c)) = true) (elements (Clients h)) in
  wire h' = wire h ++ map (fun c => (c, Content m))
              (filter (fun c => (recv c && conn_is_ok (conn_of h c)) = true) (elements (Clients h))) /\
  Clients h' = Clients h ∖ list_to_set broken /\
  UserCount h' = UserCount h - Z.of_nat (length broken) /\
  closed_conns h' = closed_conns h ++ broken /\
  Rooms h' = Rooms h /\ ClientRooms h' = ClientRooms h /\
  room_heap h' = room_heap h /\ client_heap h' = client_heap h /\
  Broadcast_q h' = Broadcast_q h.
Proof.
  intros Hr E. unfold run_broadcast in E.
  split_bind E as h0 h1 E0. injection E0 as <- <-.
  split_bind E as t h2 E0.
  assert (Hp : exists p, h2 = upd_effects id id (fun q => q ++ p) id id id id h).
  { destruct (NATSEnabled h && bool_decide (NATS h <> None) && bool_decide (MRoom m = None)
              && str_eqb (MessageID m) "").
    - split_bind E0 as b h3 E1. injection E0 as _ <-. exact (Publish_shape _ _ _ _ _ E1).
    - injection E0 as _ <-. exists []. destruct h. unfold upd_effects. cbn. rewrite app_nil_r. reflexivity. }
  destruct Hp as [p ->]. clear E0. rewrite Hr in E.
  split_bind E as h3 h4 E1. injection E1 as <- <-.
  split_bind E as rm h5 E1.
  destruct (global_loop_spec _ _ _ _ _ _ E1) as [-> ->].
  apply mapM_remove_failed_spec in E.
  - destruct E as (H1 & H2 & H3 & H4 & H5 & H6 & H7 & H8 & H9 & _).
    cbn in *. rewrite H1, H2, H3, H4, H5, H6, H7, H8, H9. repeat split; reflexivity.
  - apply NoDup_filter, NoDup_elements.
  - intros c Hc. apply list_elem_of_filter in Hc as [_ Hc]. by apply elem_of_elements in Hc.
Qed.

(** The outcomes of LeaveRoom. A session in no room is a no-op. A
    session in a room whose connection is nil makes the hub panic, because
    the farewell write is unconditional. Otherwise the session leaves the
    member set, its pointer and its index entry. *)
Theorem LeaveRoom_outcomes (h : Hub) (c : nat) (cl : Client) :
  client_heap h !! c = Some cl ->
  (c_CurrentRoom cl = None -> LeaveRoom c h = Some (tt, h)) /\
  (forall r x, c_CurrentRoom cl = Some r -> room_heap h !! r = Some x -> c_Conn cl = NoConn ->
     LeaveRoom c h = None) /\
  (forall r u h', c_CurrentRoom cl = Some r -> LeaveRoom c h = Some (u, h') ->
     exists x, room_heap h !! r = Some x /\ c_Conn cl <> NoConn /\
       room_heap h' = <[r := RemoveClient x c]> (room_heap h) /\
       client_heap h' = <[c := set_client_CurrentRoom cl None]> (client_heap h) /\
       ClientRooms h' = delete c (ClientRooms h) /\
       Rooms h' = Rooms h /\ Clients h' = Clients h /\ UserCount h' = UserCount h).
Proof.
  intros Hcl. split; [|split].
  - exact (LeaveRoom_not_in_room h c cl Hcl).
  - intros r x Hr Hx Hn. exact (LeaveRoom_nil_conn h c r cl x Hcl Hr Hx Hn).
  - intros r u h' Hr E. exact (LeaveRoom_member h h' c r cl u Hcl Hr E).
Qed.


(** ** Checkers for the scenarios *)

Lemma capacity_check_spec (h : Hub) : capacity_check h = true -> capacity_ok h.
Proof.
  unfold capacity_check, capacity_ok, room_capacity_ok. rewrite forallb_forall.
  intros H r x Hx. apply Z.leb_le.
  apply (H (r, x)), list_elem_of_In, elem_of_map_to_list, Hx.
Qed.

Lemma current_room_check_spec (h : Hub) : current_room_check h = true -> current_room_agrees h.
Proof.
  unfold current_room_check, current_room_agrees. rewrite forallb_forall.
  intros H c cl Hc. apply (bool_decide_eq_true_1 _).
  apply (H (c, cl)), list_elem_of_In, elem_of_map_to_list, Hc.
Qed.

Lemma rooms_resolved_spec (h : Hub) :
  rooms_resolved h = true -> forall n r, Rooms h !! n = Some r -> is_Some (room_heap h !! r).
Proof.
  unfold rooms_resolved. rewrite forallb_forall.
  intros H n r Hr. apply (bool_decide_eq_true_1 _).
  apply (H (n, r)), list_elem_of_In, elem_of_map_to_list, Hr.
Qed.



(** ** Witnesses of the further properties *)

Lemma hub_capacity_invariant_witness :
  capacity_ok lobby_hub /\ LeaveRoom 1 lobby_hub = Some (tt, lobby_left) /\ capacity_ok lobby_left.
Proof.
  assert (H : capacity_ok lobby_hub) by (apply capacity_check_spec; vm_compute; reflexivity).
  assert (E : LeaveRoom 1 lobby_hub = Some (tt, lobby_left)) by (vm_compute; reflexivity).
  split; [exact H|]. split; [exact E|].
  exact (proj1 (proj2 (hub_capacity_invariant lobby_hub lobby_left H)) 1%nat tt E).
Defined.

Lemma LeaveRoom_keeps_membership_witness :
  membership_inv lobby_hub /\ current_room_agrees lobby_hub /\
  LeaveRoom 1 lobby_hub = Some (tt, lobby_left) /\
  membership_inv lobby_left /\ current_room_agrees lobby_left.
Proof.
  assert (H1 : membership_inv lobby_hub) by (apply membership_check_spec; vm_compute; reflexivity).
  assert (H2 : current_room_agrees lobby_hub)
    by (apply current_room_check_spec; vm_compute; reflexivity).
  assert (E : LeaveRoom 1 lobby_hub = Some (tt, lobby_left)) by (vm_compute; reflexivity).
  split; [exact H1|]. split; [exact H2|]. split; [exact E|].
  exact (LeaveRoom_keeps_membership lobby_hub lobby_left 1 tt H1 H2 E).
Defined.

Lemma JoinRoom_success_keeps_membership_witness :
  membership_inv lobby_alice /\ current_room_agrees lobby_alice /\
  JoinRoom 2 0 "" lobby_alice = Some (None, lobby_hub) /\
  membership_inv lobby_hub /\ current_room_agrees lobby_hub /\
  ClientRooms lobby_hub !! 2%nat = Some 0%nat /\
  exists y, room_heap lobby_hub !! 0%nat = Some y /\ 2%nat ∈ r_Clients y.
Proof.
  assert (H1 : membership_inv lobby_alice) by (apply membership_check_spec; vm_compute; reflexivity).
  assert (H2 : current_room_agrees lobby_alice)
    by (apply current_room_check_spec; vm_compute; reflexivity).
  assert (E : JoinRoom 2 0 "" lobby_alice = Some (None, lobby_hub)) by (vm_compute; reflexivity).
  split; [exact H1|]. split; [exact H2|]. split; [exact E|].
  exact (JoinRoom_success_keeps_membership lobby_alice lobby_hub 2 0 "" H1 H2 E).
Defined.



Lemma HandleCreateRoom_hash_failure_witness :
  @GenerateFromPassword bcrypt72 pw73 = GenError "bcrypt: password length exceeds 72 bytes" /\
  @HandleCreateRoom bcrypt72 1 "big" true pw73 hub0 = Some (tt, big_failed) /\
  Rooms big_failed !! "big" = Some (next_ref hub0) /\
  room_heap big_failed !! next_ref hub0 = Some (NewRoom "big" true pw73 100) /\
  Repo big_failed = Repo hub0 /\
  (exists cl, client_heap hub0 !! 1%nat = Some cl /\
     wire big_failed = wire hub0 ++ (match c_Conn cl with
       | ConnOk => [(1%nat, "Error creating room: failed to hash password: bcrypt: password length exceeds 72 bytes"%string)]
       | _ => [] end)) /\
  forall c', DeleteRoom c' "big" big_failed = Some (Some NotCreator, big_failed).
Proof.
  assert (Hg : @GenerateFromPassword bcrypt72 pw73 =
    GenError "bcrypt: password length exceeds 72 bytes") by (vm_compute; reflexivity).
  assert (E : @HandleCreateRoom bcrypt72 1 "big" true pw73 hub0 = Some (tt, big_failed))
    by (vm_compute; reflexivity).
  split; [exact Hg|]. split; [exact E|].
  destruct (@HandleCreateRoom_hash_failure bcrypt72 1 "big" pw73 _ hub0 big_failed Hg)
    as (H1 & H2 & H3 & _ & H5 & H6).
  - vm_compute. discriminate.
  - exists ∅. reflexivity.
  - discriminate.
  - simpl. lia.
  - vm_compute. reflexivity.
  - intros db Hdb. vm_compute in Hdb. injection Hdb as <-. vm_compute. reflexivity.
  - exact E.
  - split; [exact H1|]. split; [exact H2|]. split; [exact H3|]. split; [exact H5|]. exact H6.
Defined.

Lemma HandleCreateRoom_creator_witness :
  CreateRoom "lobby" false "" 100 hub0 = Some ((Some 0%nat, None), lobby100_created) /\
  HandleCreateRoom 1 "lobby" false "" hub0 = Some (tt, lobby100_handled) /\
  room_heap lobby100_handled !! 0%nat = Some (SetCreator (NewRoom "lobby" false "" 100) 1) /\
  (forall c', c' <> 1%nat -> DeleteRoom c' "lobby" lobby100_handled
                            = Some (Some NotCreator, lobby100_handled)) /\
  exists h'', DeleteRoom 1 "lobby" lobby100_handled = Some (None, h'').
Proof.
  assert (E1 : CreateRoom "lobby" false "" 100 hub0 = Some ((Some 0%nat, None), lobby100_created))
    by (vm_compute; reflexivity).
  assert (E2 : HandleCreateRoom 1 "lobby" false "" hub0 = Some (tt, lobby100_handled))
    by (vm_compute; reflexivity).
  destruct (HandleCreateRoom_creator 1 "lobby" false "" hub0 lobby100_created lobby100_handled 0 E1 E2)
    as (_ & H2 & _ & H4 & H5).
  split; [exact E1|]. split; [exact E2|]. split; [exact H2|]. split; [exact H4|exact H5].
Defined.

Lemma DeleteRoom_error_unchanged_witness :
  DeleteRoom 2 "lobby" lobby_hub = Some (Some NotCreator, lobby_hub) /\
  (exists r x, Rooms lobby_hub !! "lobby" = Some r /\ room_heap lobby_hub !! r = Some x /\
    r_Creator x <> Some 2%nat) /\
  DeleteRoom 2 "nowhere" lobby_hub = Some (Some RoomDoesNotExist, lobby_hub).
Proof.
  assert (E : DeleteRoom 2 "lobby" lobby_hub = Some (Some NotCreator, lobby_hub))
    by (vm_compute; reflexivity).
  destruct (DeleteRoom_error_unchanged lobby_hub 2 "lobby") as (Herr & _ & _).
  destruct (DeleteRoom_error_unchanged lobby_hub 2 "nowhere") as (_ & Hnone & _).
  split; [exact E|]. split.
  - destruct (Herr NotCreator lobby_hub E) as (_ & [[Hd _] | [_ H]]); [discriminate | exact H].
  - apply Hnone. vm_compute. reflexivity.
Defined.



Lemma GetRoomList_spec_witness :
  (forall n r, Rooms lobby_hub !! n = Some r -> is_Some (room_heap lobby_hub !! r)) /\
  exists ds, GetRoomList 2 lobby_hub = Some (ds, lobby_hub) /\
    map dto_Name ds = map fst (map_to_list (Rooms lobby_hub)) /\
    forall d, d ∈ ds -> exists r x, Rooms lobby_hub !! dto_Name d = Some r /\
      room_heap lobby_hub !! r = Some x /\ dto_Private d = r_Private x /\
      dto_ClientCount d = GetClientCount x /\ (dto_IsCreator d = true <-> IsCreator x 2 = true).
Proof.
  assert (H : forall n r, Rooms lobby_hub !! n = Some r -> is_Some (room_heap lobby_hub !! r))
    by (apply rooms_resolved_spec; vm_compute; reflexivity).
  split; [exact H|]. exact (GetRoomList_spec 2 lobby_hub H).
Defined.

Lemma run_unregister_effect_witness :
  run_unregister (Some 1%nat) hub_reg1 = Some (tt, hub_unreg1) /\
  exists cl, client_heap hub_reg1 !! 1%nat = Some cl /\
    Clients hub_unreg1 = Clients hub_reg1 ∖ {[1%nat]} /\
    UserCount hub_unreg1 = (if bool_decide (1%nat ∈ Clients hub_reg1) then UserCount hub_reg1 - 1
                            else UserCount hub_reg1) /\
    closed_conns hub_unreg1 = closed_conns hub_reg1 ++
      (if bool_decide (1%nat ∈ Clients hub_reg1) &&
          match c_Conn cl with NoConn => false | _ => true end
       then [1%nat] else []) /\
    Broadcast_q hub_unreg1 = Broadcast_q hub_reg1 ++
      [mkMessage "" ("[" +:+ clock hub_reg1 +:+ "] " +:+ c_Name cl +:+ " has left the chat")
         MsgTypeLeave None None ""] /\
    Rooms hub_unreg1 = Rooms hub_reg1 /\ ClientRooms hub_unreg1 = ClientRooms hub_reg1 /\
    room_heap hub_unreg1 = room_heap hub_reg1 /\ client_heap hub_unreg1 = client_heap hub_reg1.
Proof.
  assert (E : run_unregister (Some 1%nat) hub_reg1 = Some (tt, hub_unreg1))
    by (vm_compute; reflexivity).
  split; [exact E|]. exact (run_unregister_effect hub_reg1 hub_unreg1 1 tt E).
Defined.

Lemma user_count_invariant_witness :
  count_ok hub_reg1 /\ run_unregister (Some 1%nat) hub_reg1 = Some (tt, hub_unreg1) /\
  count_ok hub_unreg1.
Proof.
  assert (H : count_ok hub_reg1) by (vm_compute; reflexivity).
  assert (E : run_unregister (Some 1%nat) hub_reg1 = Some (tt, hub_unreg1))
    by (vm_compute; reflexivity).
  split; [exact H|]. split; [exact E|].
  exact (proj1 (user_count_invariant hub_reg1 hub_unreg1 H) 1%nat tt E).
Defined.

Lemma BroadcastToRoom_delivery_witness :
  BroadcastToRoom 0 join_note lobby_hub = Some (tt, lobby_noted) /\
  exists x, room_heap lobby_hub !! 0%nat = Some x /\
    Clients lobby_noted = Clients lobby_hub /\ Rooms lobby_noted = Rooms lobby_hub /\
    ClientRooms lobby_noted = ClientRooms lobby_hub /\
    room_heap lobby_noted = room_heap lobby_hub /\ client_heap lobby_noted = client_heap lobby_hub /\
    let recv c := negb (str_eqb (Type_ join_note) MsgTypeRoomMessage
                        && bool_decide (Sender join_note = Some c)) in
    match ValidateMessageSizeErr (Z.of_nat (String.length (Content join_note)))
            (GetMaxMessageSize (WSMaxMessageSize lobby_hub)) with
    | None =>
      wire lobby_noted = wire lobby_hub ++
        map (fun c => (c, ("[" +:+ r_Name x +:+ "] " +:+ Content join_note)%string))
          (filter (fun c => (recv c && conn_is_ok (conn_of lobby_hub c)) = true) (elements (r_Clients x))) /\
      Unregister_q lobby_noted = Unregister_q lobby_hub ++
        filter (fun c => (recv c && conn_is_broken (conn_of lobby_hub c)) = true) (elements (r_Clients x))
    | Some _ => wire lobby_noted = wire lobby_hub /\ Unregister_q lobby_noted = Unregister_q lobby_hub
    end.
Proof.
  assert (E : BroadcastToRoom 0 join_note lobby_hub = Some (tt, lobby_noted))
    by (vm_compute; reflexivity).
  split; [exact E|]. exact (BroadcastToRoom_delivery 0 join_note lobby_hub lobby_noted tt E).
Defined.

Lemma run_broadcast_global_witness :
  MRoom chat_msg = None /\ run_broadcast chat_msg hub_chat0 = Some (tt, hub_chat1) /\
  let recv c := negb (str_eqb (Type_ chat_msg) MsgTypeChat && bool_decide (Sender chat_msg = Some c)) in
  let broken := filter (fun c => (recv c && conn_is_broken (conn_of hub_chat0 c)) = true)
                  (elements (Clients hub_chat0)) in
  wire hub_chat1 = wire hub_chat0 ++ map (fun c => (c, Content chat_msg))
    (filter (fun c => (recv c && conn_is_ok (conn_of hub_chat0 c)) = true) (elements (Clients hub_chat0))) /\
  Clients hub_chat1 = Clients hub_chat0 ∖ list_to_set broken /\
  UserCount hub_chat1 = UserCount hub_chat0 - Z.of_nat (length broken) /\
  closed_conns hub_chat1 = closed_conns hub_chat0 ++ broken /\
  Rooms hub_chat1 = Rooms hub_chat0 /\ ClientRooms hub_chat1 = ClientRooms hub_chat0 /\
  room_heap hub_chat1 = room_heap hub_chat0 /\ client_heap hub_chat1 = client_heap hub_chat0 /\
  Broadcast_q hub_chat1 = Broadcast_q hub_chat0.
Proof.
  assert (E : run_broadcast chat_msg hub_chat0 = Some (tt, hub_chat1)) by (vm_compute; reflexivity).
  split; [reflexivity|]. split; [exact E|].
  exact (run_broadcast_global chat_msg hub_chat0 hub_chat1 tt eq_refl E).
Defined.


Lemma LeaveRoom_outcomes_witness :
  client_heap vip_full !! 1%nat = Some guest_in_vip /\ c_CurrentRoom guest_in_vip = Some 0%nat /\
  c_Conn guest_in_vip = NoConn /\ is_Some (room_heap vip_full !! 0%nat) /\
  LeaveRoom 1 vip_full = None.
Proof.
  assert (H1 : client_heap vip_full !! 1%nat = Some guest_in_vip) by (vm_compute; reflexivity).
  assert (H2 : c_CurrentRoom guest_in_vip = Some 0%nat) by (vm_compute; reflexivity).
  assert (H3 : c_Conn guest_in_vip = NoConn) by (vm_compute; reflexivity).
  destruct (room_heap vip_full !! 0%nat) as [x|] eqn:Hx; [|vm_compute in Hx; discriminate].
  split; [exact H1|]. split; [exact H2|]. split; [exact H3|]. split; [exists x; reflexivity|].
  exact (proj1 (proj2 (LeaveRoom_outcomes vip_full 1 guest_in_vip H1)) 0%nat x H2 Hx H3).
Defined.
